(** * VoxShift: the duplex voice session of [src/App.tsx]

    A shallow embedding of the session logic of the [App] component: the
    playback timeline ([nextStartTimeRef], [sourcesRef]), the capture
    callback, the inbound message handler, the start/stop control and the
    sample codec the component imports from [utils/audioHelpers].

    Conventions.
    - JavaScript numbers that carry time or sample values are exact
      rationals ([Q]); equalities between computed times are stated with
      [==].  [Date.now()] is an integer number of milliseconds ([Z]).
    - Objects with identity (audio contexts, media streams, buffer source
      nodes, live sessions) are natural-number ids drawn from one counter.
    - What the platform and the remote service decide (whether a device is
      granted, the reading of a clock, the outcome of decoding a fragment)
      is an explicit argument of the handler that asks for it.
    - A handler runs to completion before the next one starts, and a
      state setter has taken effect by then: [setX(v)] and [setX(f)] are
      applied to the state in the order of the calls. *)

From Stdlib Require Import ZArith QArith Qminmax Qabs Qround.
From Stdlib Require Import String Ascii List Lia Lqa Bool.
From stdpp Require Import gmap strings.
Import ListNotations.

(** [s === ""]. *)
Definition isEmpty (s : string) : bool :=
  match s with
  | EmptyString => true
  | String _ _ => false
  end.

(* ================================================================== *)
(** * [src/types.ts] *)

Module Types.

Inductive VoiceName := ZEPHYR | PUCK | KORE | FENRIR | CHARON.

(** The union ['user' | 'model'] of [TranscriptionEntry.type]. *)
Inductive Speaker := user | model.

Record TranscriptionEntry := {
  id : string;
  type : Speaker;
  text : string;
  timestamp : Z
}.

End Types.

(* ================================================================== *)
(** * The part of the Web Audio interface the component uses *)

Module WebAudio.

(** An [AudioBuffer]: per channel, the sample frames it holds. *)
Record AudioBuffer := {
  sampleRate : positive;
  channelData : list (list Q)
}.

(** [AudioBuffer.length]: the number of sample frames. *)
Definition frames (b : AudioBuffer) : nat :=
  match channelData b with
  | c :: _ => length c
  | [] => 0%nat
  end.

(** [AudioBuffer.duration], in seconds: frames over sample rate. *)
Definition duration (b : AudioBuffer) : Q :=
  Z.of_nat (frames b) # sampleRate b.

End WebAudio.

(* ================================================================== *)
(** * The sample codec ([utils/audioHelpers]) *)

Module SampleCodec.

Import WebAudio.
Local Open Scope Z_scope.

(** ** Transport framing: base64 over bytes (each a [Z] in [0, 256)) *)

(** Modelled from the spec: the module [utils/audioHelpers] that
    [App.tsx] imports [decode], [decodeAudioData] and [createPcmBlob] from
    is not among the source files.  Every definition of this section
    follows section 4.1 of the specification ("16-bit little-endian PCM,
    base64-framed"); this one is the base64 alphabet. *)
Definition alphabet : string :=
  "ABCDEFGHIJKLMNOPQRSTUVWXYZabcdefghijklmnopqrstuvwxyz0123456789+/".

(** Modelled from the spec: the padding character of the framing. *)
Definition pad : ascii := "="%char.

(** Modelled from the spec: the character of a sextet. *)
Definition sextetChar (n : Z) : ascii :=
  match String.get (Z.to_nat n) alphabet with
  | Some c => c
  | None => pad
  end.

(** Modelled from the spec: the position of a character in a string,
    counted from [i]. *)
Fixpoint indexOf (c : ascii) (s : string) (i : Z) : option Z :=
  match s with
  | EmptyString => None
  | String d rest => if Ascii.eqb c d then Some i else indexOf c rest (i + 1)
  end.

(** Modelled from the spec: the sextet of a character of the alphabet. *)
Definition charSextet (c : ascii) : option Z := indexOf c alphabet 0.

(** Modelled from the spec: the four sextets of a group of three bytes. *)
Definition sextet1 (a : Z) : Z := Z.shiftr a 2.
(** Modelled from the spec: second sextet. *)
Definition sextet2 (a b : Z) : Z := Z.lor (Z.shiftl (Z.land a 3) 4) (Z.shiftr b 4).
(** Modelled from the spec: third sextet. *)
Definition sextet3 (b c : Z) : Z := Z.lor (Z.shiftl (Z.land b 15) 2) (Z.shiftr c 6).
(** Modelled from the spec: fourth sextet. *)
Definition sextet4 (c : Z) : Z := Z.land c 63.

(** Modelled from the spec: binary to text ("a transport-safe
    binary-to-text framing"): three bytes become four characters, a final
    group of one or two bytes is padded with [=]. *)
Fixpoint btoa (bytes : list Z) : string :=
  match bytes with
  | [] => EmptyString
  | [a] =>
      String (sextetChar (sextet1 a))
        (String (sextetChar (sextet2 a 0))
          (String pad (String pad EmptyString)))
  | [a; b] =>
      String (sextetChar (sextet1 a))
        (String (sextetChar (sextet2 a b))
          (String (sextetChar (sextet3 b 0)) (String pad EmptyString)))
  | a :: b :: c :: rest =>
      String (sextetChar (sextet1 a))
        (String (sextetChar (sextet2 a b))
          (String (sextetChar (sextet3 b c))
            (String (sextetChar (sextet4 c)) (btoa rest))))
  end.

(** Modelled from the spec: the bytes that four sextets stand for;
    this is the first. *)
Definition byte1 (s1 s2 : Z) : Z := Z.lor (Z.shiftl s1 2) (Z.shiftr s2 4).
(** Modelled from the spec: second byte. *)
Definition byte2 (s2 s3 : Z) : Z := Z.lor (Z.shiftl (Z.land s2 15) 4) (Z.shiftr s3 2).
(** Modelled from the spec: third byte. *)
Definition byte3 (s3 s4 : Z) : Z := Z.lor (Z.shiftl (Z.land s3 3) 6) s4.

(** Modelled from the spec: text to binary ("inverse of the transport
    framing step"); [None] stands for the failure on a string that is not
    base64. *)
Fixpoint atob (s : string) : option (list Z) :=
  match s with
  | EmptyString => Some []
  | String c1 (String c2 (String c3 (String c4 rest))) =>
      match charSextet c1, charSextet c2 with
      | Some s1, Some s2 =>
          if Ascii.eqb c3 pad && Ascii.eqb c4 pad && isEmpty rest
          then Some [byte1 s1 s2]
          else
            match charSextet c3 with
            | Some s3 =>
                if Ascii.eqb c4 pad && isEmpty rest
                then Some [byte1 s1 s2; byte2 s2 s3]
                else
                  match charSextet c4, atob rest with
                  | Some s4, Some bytes =>
                      Some (byte1 s1 s2 :: byte2 s2 s3 :: byte3 s3 s4 :: bytes)
                  | _, _ => None
                  end
            | None => None
            end
      | _, _ => None
      end
  | _ => None
  end.

(** ** Samples to 16-bit signed little-endian PCM and back *)

(** Modelled from the spec: "scaling by 32767 and rounding", to the
    nearest integer, halves going up. *)
Definition quantize (x : Q) : Z := Qfloor (x * 32767 + (1 # 2))%Q.

(** Modelled from the spec: the conversion to a 16-bit signed integer
    keeps the low 16 bits, read as signed. *)
Definition toInt16 (z : Z) : Z := (z + 32768) mod 65536 - 32768.

(** Modelled from the spec: "emits little-endian byte pairs": the two
    bytes of a 16-bit sample, low byte first. *)
Definition int16Bytes (z : Z) : list Z :=
  let u := z mod 65536 in [Z.land u 255; Z.shiftr u 8].

(** Modelled from the spec: the signed 16-bit sample of a byte pair. *)
Definition bytesInt16 (lo hi : Z) : Z := toInt16 (Z.lor lo (Z.shiftl hi 8)).

(** Modelled from the spec: the PCM bytes of a sample sequence. *)
Definition pcmBytes (samples : list Q) : list Z :=
  flat_map (fun x => int16Bytes (toInt16 (quantize x))) samples.

(** Modelled from the spec: "interprets the byte sequence as 16-bit
    little-endian signed PCM"; a trailing odd byte is not a sample, the
    result is then [None]. *)
Fixpoint pcmInt16 (bytes : list Z) : option (list Z) :=
  match bytes with
  | [] => Some []
  | lo :: hi :: rest =>
      match pcmInt16 rest with
      | Some l => Some (bytesInt16 lo hi :: l)
      | None => None
      end
  | [_] => None
  end.

(** Modelled from the spec: de-interleaving, "the interleave stride
    equals channelCount": every [stride]-th element of [l], starting with
    the one at [skip]. *)
Fixpoint everyNth (stride skip : nat) (l : list Q) : list Q :=
  match l with
  | [] => []
  | x :: rest =>
      match skip with
      | O => x :: everyNth stride (stride - 1) rest
      | S k => everyNth stride k rest
      end
  end.

(** ** The operations of the codec *)

(** Modelled from the spec: [createPcmBlob]/[encode] of
    [utils/audioHelpers], which is not among the source files.
    "maps each float sample to a 16-bit signed integer by scaling by
    32767 and rounding, emits little-endian byte pairs, then applies a
    transport-safe binary-to-text framing". *)
Definition encode (samples : list Q) : string := btoa (pcmBytes samples).

(** Modelled from the spec: [decode] of [utils/audioHelpers]: "inverse of
    the transport framing step only (text-to-binary)". *)
Definition decode (chunk : string) : option (list Z) := atob chunk.

(** Modelled from the spec: [decodeAudioData]/[toAudioBuffer] of
    [utils/audioHelpers]: "interprets the byte sequence as 16-bit
    little-endian signed PCM, converts each sample back to a float in
    [-1,1] by dividing by 32768, and packs the result into a buffer tagged
    with the given sample rate and channel count", de-interleaving with a
    stride equal to the channel count. *)
Definition toAudioBuffer (bytes : list Z) (rate : positive) (channelCount : nat)
  : option AudioBuffer :=
  match pcmInt16 bytes with
  | Some ints =>
      let floats := map (fun n => (n # 32768)%Q) ints in
      Some {| sampleRate := rate;
              channelData :=
                map (fun c => everyNth channelCount c floats) (seq 0 channelCount) |}
  | None => None
  end.

(** Modelled from the spec: [decodeToSamples] of the round-trip
    property: the samples of channel 0 of the decoded form of a mono
    chunk. *)
Definition decodeToSamples (chunk : string) : option (list Q) :=
  match decode chunk with
  | Some bytes =>
      match toAudioBuffer bytes 24000 1 with
      | Some b => Some (nth 0 (channelData b) [])
      | None => None
      end
  | None => None
  end.

(** A sample the capture delivers: a number in [-1, 1]. *)
Definition inRange (x : Q) : Prop := (-1 <= x /\ x <= 1)%Q.

Definition isByte (b : Z) : Prop := 0 <= b < 256.

(** The integers [0 .. n-1]. *)
Definition upTo (n : nat) : list Z := map Z.of_nat (seq 0 n).

(** Decoding the encoded form of [samples] gives as many samples, each
    within [eps] of the one it stands for. *)
Definition roundTrips (eps : Q) (samples : list Q) : Prop :=
  exists decodedSamples,
    decodeToSamples (encode samples) = Some decodedSamples
    /\ Forall2 (fun x y => (Qabs (y - x) <= eps)%Q) samples decodedSamples.

(** Modelled from the spec: [createPcmBlob] of [utils/audioHelpers], the
    encoded chunk of one capture frame. *)
Definition createPcmBlob (samples : list Q) : string := encode samples.

End SampleCodec.

(* ================================================================== *)
(** * Inbound messages ([LiveServerMessage] of the client library) *)

Module Genai.

Record Blob := { data : option string; mimeType : option string }.
Record Part := { inlineData : option Blob }.
Record Content := { parts : option (list Part) }.
Record Transcription := { text : option string }.

Record LiveServerContent := {
  modelTurn : option Content;
  turnComplete : option bool;
  interrupted : option bool;
  inputTranscription : option Transcription;
  outputTranscription : option Transcription
}.

Record LiveServerMessage := { serverContent : option LiveServerContent }.

End Genai.

(* ================================================================== *)
(** * [src/App.tsx] *)

Module App.

Import WebAudio.

Inductive ConnectionStatus := idle | connecting | connected | error.

(** The values of the [useState] cells in one render of the component.
    Every function created during a render sees these values, and keeps
    seeing them after later renders. *)
Record Render := {
  isActive : bool;
  selectedVoice : Types.VoiceName;
  history : list Types.TranscriptionEntry;
  currentInput : string;
  currentOutput : string;
  isMuted : bool;
  connectionStatus : ConnectionStatus
}.

(** The value of [audioContextRef.current]. *)
Record AudioContexts := { input : nat; output : nat }.

(** What the callbacks handed to [ai.live.connect] close over: the render
    in which [handleStartSession] was called and the locals of that call. *)
Record Closure := {
  scope : Render;
  inputCtx : nat;
  outputCtx : nat;
  stream : nat
}.

(** The objects outside the component. *)
Record Browser := {
  nextId : nat;
  contexts : gmap nat positive;        (* audio contexts and their rates *)
  closedContexts : gset nat;           (* [close()] was called *)
  streams : gset nat;                  (* streams [getUserMedia] granted *)
  stoppedStreams : gset nat;           (* every track was stopped *)
  sessions : gmap nat Closure;         (* [ai.live.connect] calls *)
  closedSessions : gset nat;           (* [session.close()] was called *)
  processors : gset nat;               (* sessions with a capture callback *)
  started : gmap nat (nat * AudioBuffer * Q);
                                       (* source node: context, buffer, when *)
  stoppedSources : gset nat;           (* [source.stop()] was called *)
  sent : list (nat * string)           (* frames handed to [sendRealtimeInput] *)
}.

Record State := {
  render : Render;                     (* the latest render *)
  sessionRef : option nat;
  audioContextRef : option AudioContexts;
  nextStartTimeRef : Q;
  sourcesRef : gset nat;
  streamRef : option nat;
  browser : Browser
}.

Definition initialRender : Render :=
  {| isActive := false; selectedVoice := Types.ZEPHYR; history := [];
     currentInput := ""; currentOutput := ""; isMuted := false;
     connectionStatus := idle |}.

Definition emptyBrowser : Browser :=
  {| nextId := 0; contexts := ∅; closedContexts := ∅; streams := ∅;
     stoppedStreams := ∅; sessions := ∅; closedSessions := ∅;
     processors := ∅; started := ∅; stoppedSources := ∅; sent := [] |}.

Definition initial : State :=
  {| render := initialRender; sessionRef := None; audioContextRef := None;
     nextStartTimeRef := 0; sourcesRef := ∅; streamRef := None;
     browser := emptyBrowser |}.

(** ** Field updates *)

Definition withRender (f : Render -> Render) (s : State) : State :=
  {| render := f (render s); sessionRef := sessionRef s;
     audioContextRef := audioContextRef s;
     nextStartTimeRef := nextStartTimeRef s; sourcesRef := sourcesRef s;
     streamRef := streamRef s; browser := browser s |}.

Definition withBrowser (f : Browser -> Browser) (s : State) : State :=
  {| render := render s; sessionRef := sessionRef s;
     audioContextRef := audioContextRef s;
     nextStartTimeRef := nextStartTimeRef s; sourcesRef := sourcesRef s;
     streamRef := streamRef s; browser := f (browser s) |}.

Definition withSessionRef (v : option nat) (s : State) : State :=
  {| render := render s; sessionRef := v;
     audioContextRef := audioContextRef s;
     nextStartTimeRef := nextStartTimeRef s; sourcesRef := sourcesRef s;
     streamRef := streamRef s; browser := browser s |}.

Definition withAudioContextRef (v : option AudioContexts) (s : State) : State :=
  {| render := render s; sessionRef := sessionRef s; audioContextRef := v;
     nextStartTimeRef := nextStartTimeRef s; sourcesRef := sourcesRef s;
     streamRef := streamRef s; browser := browser s |}.

Definition withNextStartTime (v : Q) (s : State) : State :=
  {| render := render s; sessionRef := sessionRef s;
     audioContextRef := audioContextRef s;
     nextStartTimeRef := v; sourcesRef := sourcesRef s;
     streamRef := streamRef s; browser := browser s |}.

Definition withSources (v : gset nat) (s : State) : State :=
  {| render := render s; sessionRef := sessionRef s;
     audioContextRef := audioContextRef s;
     nextStartTimeRef := nextStartTimeRef s; sourcesRef := v;
     streamRef := streamRef s; browser := browser s |}.

Definition withStreamRef (v : option nat) (s : State) : State :=
  {| render := render s; sessionRef := sessionRef s;
     audioContextRef := audioContextRef s;
     nextStartTimeRef := nextStartTimeRef s; sourcesRef := sourcesRef s;
     streamRef := v; browser := browser s |}.

Definition renderIsActive (v : bool) (r : Render) : Render :=
  {| isActive := v; selectedVoice := selectedVoice r; history := history r;
     currentInput := currentInput r; currentOutput := currentOutput r;
     isMuted := isMuted r; connectionStatus := connectionStatus r |}.

Definition renderSelectedVoice (v : Types.VoiceName) (r : Render) : Render :=
  {| isActive := isActive r; selectedVoice := v; history := history r;
     currentInput := currentInput r; currentOutput := currentOutput r;
     isMuted := isMuted r; connectionStatus := connectionStatus r |}.

Definition renderHistory (f : list Types.TranscriptionEntry -> list Types.TranscriptionEntry)
    (r : Render) : Render :=
  {| isActive := isActive r; selectedVoice := selectedVoice r;
     history := f (history r);
     currentInput := currentInput r; currentOutput := currentOutput r;
     isMuted := isMuted r; connectionStatus := connectionStatus r |}.

Definition renderCurrentInput (f : string -> string) (r : Render) : Render :=
  {| isActive := isActive r; selectedVoice := selectedVoice r;
     history := history r;
     currentInput := f (currentInput r); currentOutput := currentOutput r;
     isMuted := isMuted r; connectionStatus := connectionStatus r |}.

Definition renderCurrentOutput (f : string -> string) (r : Render) : Render :=
  {| isActive := isActive r; selectedVoice := selectedVoice r;
     history := history r;
     currentInput := currentInput r; currentOutput := f (currentOutput r);
     isMuted := isMuted r; connectionStatus := connectionStatus r |}.

Definition renderIsMuted (v : bool) (r : Render) : Render :=
  {| isActive := isActive r; selectedVoice := selectedVoice r;
     history := history r;
     currentInput := currentInput r; currentOutput := currentOutput r;
     isMuted := v; connectionStatus := connectionStatus r |}.

Definition renderConnectionStatus (v : ConnectionStatus) (r : Render) : Render :=
  {| isActive := isActive r; selectedVoice := selectedVoice r;
     history := history r;
     currentInput := currentInput r; currentOutput := currentOutput r;
     isMuted := isMuted r; connectionStatus := v |}.

(** ** What the platform does to its objects *)

Definition allocate (b : Browser) : Browser :=
  {| nextId := S (nextId b); contexts := contexts b;
     closedContexts := closedContexts b; streams := streams b;
     stoppedStreams := stoppedStreams b; sessions := sessions b;
     closedSessions := closedSessions b; processors := processors b;
     started := started b; stoppedSources := stoppedSources b;
     sent := sent b |}.

Definition addContext (c : nat) (rate : positive) (b : Browser) : Browser :=
  {| nextId := nextId b; contexts := <[c := rate]> (contexts b);
     closedContexts := closedContexts b; streams := streams b;
     stoppedStreams := stoppedStreams b; sessions := sessions b;
     closedSessions := closedSessions b; processors := processors b;
     started := started b; stoppedSources := stoppedSources b;
     sent := sent b |}.

Definition closeContext (c : nat) (b : Browser) : Browser :=
  {| nextId := nextId b; contexts := contexts b;
     closedContexts := {[c]} ∪ closedContexts b; streams := streams b;
     stoppedStreams := stoppedStreams b; sessions := sessions b;
     closedSessions := closedSessions b; processors := processors b;
     started := started b; stoppedSources := stoppedSources b;
     sent := sent b |}.

Definition addStream (m : nat) (b : Browser) : Browser :=
  {| nextId := nextId b; contexts := contexts b;
     closedContexts := closedContexts b; streams := {[m]} ∪ streams b;
     stoppedStreams := stoppedStreams b; sessions := sessions b;
     closedSessions := closedSessions b; processors := processors b;
     started := started b; stoppedSources := stoppedSources b;
     sent := sent b |}.

Definition stopTracks (m : nat) (b : Browser) : Browser :=
  {| nextId := nextId b; contexts := contexts b;
     closedContexts := closedContexts b; streams := streams b;
     stoppedStreams := {[m]} ∪ stoppedStreams b; sessions := sessions b;
     closedSessions := closedSessions b; processors := processors b;
     started := started b; stoppedSources := stoppedSources b;
     sent := sent b |}.

Definition addSession (k : nat) (cl : Closure) (b : Browser) : Browser :=
  {| nextId := nextId b; contexts := contexts b;
     closedContexts := closedContexts b; streams := streams b;
     stoppedStreams := stoppedStreams b; sessions := <[k := cl]> (sessions b);
     closedSessions := closedSessions b; processors := processors b;
     started := started b; stoppedSources := stoppedSources b;
     sent := sent b |}.

Definition closeSession (k : nat) (b : Browser) : Browser :=
  {| nextId := nextId b; contexts := contexts b;
     closedContexts := closedContexts b; streams := streams b;
     stoppedStreams := stoppedStreams b; sessions := sessions b;
     closedSessions := {[k]} ∪ closedSessions b; processors := processors b;
     started := started b; stoppedSources := stoppedSources b;
     sent := sent b |}.

Definition addProcessor (k : nat) (b : Browser) : Browser :=
  {| nextId := nextId b; contexts := contexts b;
     closedContexts := closedContexts b; streams := streams b;
     stoppedStreams := stoppedStreams b; sessions := sessions b;
     closedSessions := closedSessions b; processors := {[k]} ∪ processors b;
     started := started b; stoppedSources := stoppedSources b;
     sent := sent b |}.

Definition startSource (n c : nat) (buffer : AudioBuffer) (when : Q)
    (b : Browser) : Browser :=
  {| nextId := nextId b; contexts := contexts b;
     closedContexts := closedContexts b; streams := streams b;
     stoppedStreams := stoppedStreams b; sessions := sessions b;
     closedSessions := closedSessions b; processors := processors b;
     started := <[n := (c, buffer, when)]> (started b);
     stoppedSources := stoppedSources b; sent := sent b |}.

Definition stopSources (ns : gset nat) (b : Browser) : Browser :=
  {| nextId := nextId b; contexts := contexts b;
     closedContexts := closedContexts b; streams := streams b;
     stoppedStreams := stoppedStreams b; sessions := sessions b;
     closedSessions := closedSessions b; processors := processors b;
     started := started b; stoppedSources := ns ∪ stoppedSources b;
     sent := sent b |}.

Definition sendRealtimeInput (k : nat) (media : string)
    (b : Browser) : Browser :=
  {| nextId := nextId b; contexts := contexts b;
     closedContexts := closedContexts b; streams := streams b;
     stoppedStreams := stoppedStreams b; sessions := sessions b;
     closedSessions := closedSessions b; processors := processors b;
     started := started b; stoppedSources := stoppedSources b;
     sent := sent b ++ [(k, media)] |}.

(** ** Handlers as state transformers that may throw *)

Inductive Completion (A : Type) :=
| Normal (a : A)
| Throw.
Arguments Normal {A} a.
Arguments Throw {A}.

Definition Js (A : Type) : Type := State -> Completion A * State.

Definition ret {A} (a : A) : Js A := fun s => (Normal a, s).

Definition bind {A B} (c : Js A) (k : A -> Js B) : Js B :=
  fun s =>
    match c s with
    | (Normal a, s') => k a s'
    | (Throw, s') => (Throw, s')
    end.

Definition throw {A} : Js A := fun s => (Throw, s).

(** [try { body } catch { handler }]. *)
Definition tryCatch (body handler : Js unit) : Js unit :=
  fun s =>
    match body s with
    | (Normal a, s') => (Normal a, s')
    | (Throw, s') => handler s'
    end.

Definition gets {A} (f : State -> A) : Js A := fun s => (Normal (f s), s).

Definition modify (f : State -> State) : Js unit := fun s => (Normal tt, f s).

Declare Scope js_scope.
Delimit Scope js_scope with js.
Notation "x <- c ;; k" := (bind c (fun x => k))
  (at level 20, c at level 99, k at level 200, only parsing) : js_scope.
Notation "c ;; k" := (bind c (fun _ => k))
  (at level 100, k at level 200, right associativity, only parsing) : js_scope.
Local Open Scope js_scope.

Definition when (b : bool) (c : Js unit) : Js unit := if b then c else ret tt.

(** ** State setters of the component *)

Definition setIsActive (v : bool) : Js unit :=
  modify (withRender (renderIsActive v)).
Definition setSelectedVoice (v : Types.VoiceName) : Js unit :=
  modify (withRender (renderSelectedVoice v)).
Definition setHistory (f : list Types.TranscriptionEntry -> list Types.TranscriptionEntry)
  : Js unit :=
  modify (withRender (renderHistory f)).
Definition setCurrentInput (f : string -> string) : Js unit :=
  modify (withRender (renderCurrentInput f)).
Definition setCurrentOutput (f : string -> string) : Js unit :=
  modify (withRender (renderCurrentOutput f)).
Definition setIsMuted (v : bool) : Js unit :=
  modify (withRender (renderIsMuted v)).
Definition setConnectionStatus (v : ConnectionStatus) : Js unit :=
  modify (withRender (renderConnectionStatus v)).

(** ** Platform calls *)

Definition freshId : Js nat :=
  n <- gets (fun s => nextId (browser s)) ;;
  modify (withBrowser allocate) ;;
  ret n.

(** [new AudioContext({ sampleRate })]; throws when no context can be
    made. *)
Definition newAudioContext (available : bool) (rate : positive) : Js nat :=
  if available then
    c <- freshId ;;
    modify (withBrowser (addContext c rate)) ;;
    ret c
  else throw.

(** [await navigator.mediaDevices.getUserMedia({ audio: true })]; throws
    when the microphone is denied or missing. *)
Definition getUserMedia (granted : bool) : Js nat :=
  if granted then
    m <- freshId ;;
    modify (withBrowser (addStream m)) ;;
    ret m
  else throw.

(** [ai.live.connect({ ..., callbacks })]: a new session whose callbacks
    share the closure [cl]. *)
Definition connect (cl : Closure) : Js nat :=
  k <- freshId ;;
  modify (withBrowser (addSession k cl)) ;;
  ret k.

(** What the platform answers to one call of [handleStartSession]. *)
Record Devices := {
  inputContext : bool;     (* the 16 kHz context can be made *)
  outputContext : bool;    (* the 24 kHz context can be made *)
  microphone : bool        (* [getUserMedia] resolves *)
}.

(** What the platform answers while one message is handled. *)
Record Readings := {
  currentTime : Q;                 (* [outCtx.currentTime] *)
  decoded : option AudioBuffer;    (* [decodeAudioData(decode(data), ...)],
                                      [None] when it throws *)
  random1 : string;                (* [Math.random().toString()] *)
  now1 : Z;                        (* [Date.now()] *)
  random2 : string;
  now2 : Z
}.

(** ** [setupAudio] and [stopAudio] *)

Definition setupAudio (env : Devices) : Js (nat * nat * nat) :=
  inputCtx <- newAudioContext (inputContext env) 16000 ;;
  outputCtx <- newAudioContext (outputContext env) 24000 ;;
  modify (withAudioContextRef (Some {| input := inputCtx; output := outputCtx |})) ;;
  stream <- getUserMedia (microphone env) ;;
  modify (withStreamRef (Some stream)) ;;
  ret (inputCtx, outputCtx, stream).

(** [sourcesRef.current.forEach(s => s.stop()); sourcesRef.current.clear();
    nextStartTimeRef.current = 0]: the tail of [stopAudio] and the body of
    the [interrupted] branch of [onmessage]. *)
Definition flushPlayback : Js unit :=
  active <- gets sourcesRef ;;
  modify (withBrowser (stopSources active)) ;;
  modify (withSources ∅) ;;
  modify (withNextStartTime 0).

Definition stopAudio : Js unit :=
  streamNow <- gets streamRef ;;
  match streamNow with
  | Some m => modify (withBrowser (stopTracks m))
  | None => ret tt
  end ;;
  ctxs <- gets audioContextRef ;;
  match ctxs with
  | Some c =>
      modify (withBrowser (closeContext (input c))) ;;
      modify (withBrowser (closeContext (output c)))
  | None => ret tt
  end ;;
  flushPlayback.

(** ** [handleStartSession] *)

(** The handler up to the call of [ai.live.connect]; its last line is
    [awaitSession].  Making the client object ([new GoogleGenAI]) is taken
    to succeed. *)
Definition handleStartSession (env : Devices) : Js unit :=
  r <- gets render ;;
  if isActive r then
    setIsActive false ;;
    setConnectionStatus idle ;;
    held <- gets sessionRef ;;
    match held with
    | Some k => modify (withBrowser (closeSession k))
    | None => ret tt
    end ;;
    stopAudio
  else
    tryCatch
      (setConnectionStatus connecting ;;
       acquired <- setupAudio env ;;
       let '(inputCtx, outputCtx, stream) := acquired in
       connect {| scope := r; inputCtx := inputCtx; outputCtx := outputCtx;
                  stream := stream |} ;;
       ret tt)
      (setConnectionStatus error).

(** [sessionRef.current = await sessionPromise], still inside the [try]. *)
Definition awaitSession (k : nat) (resolved : bool) : Js unit :=
  if resolved then modify (withSessionRef (Some k))
  else setConnectionStatus error.

(** ** The callbacks of a session *)

Definition onopen (k : nat) (cl : Closure) : Js unit :=
  setConnectionStatus connected ;;
  setIsActive true ;;
  modify (withBrowser (addProcessor k)).

(** [scriptProcessor.onaudioprocess]: [isMuted] is the variable of the
    render in which the session was started.  The frame is recorded as
    handed over when the callback runs; the source defers the send to the
    resolution of [sessionPromise]. *)
Definition onaudioprocess (k : nat) (cl : Closure) (inputData : list Q) : Js unit :=
  if isMuted (scope cl) then ret tt
  else
    let pcmBlob := SampleCodec.createPcmBlob inputData in
    modify (withBrowser (sendRealtimeInput k pcmBlob)).

(** [message.serverContent?.modelTurn?.parts[0]?.inlineData?.data]:
    [parts] is indexed without [?.], a turn without parts throws. *)
Definition audioData (message : Genai.LiveServerMessage)
  : Completion (option string) :=
  match Genai.serverContent message with
  | None => Normal None
  | Some content =>
      match Genai.modelTurn content with
      | None => Normal None
      | Some turn =>
          match Genai.parts turn with
          | None => Throw
          | Some [] => Normal None
          | Some (part :: _) =>
              match Genai.inlineData part with
              | None => Normal None
              | Some blob => Normal (Genai.data blob)
              end
          end
      end
  end.

Definition complete {A} (c : Completion A) : Js A := fun s => (c, s).

(** Truthiness of an optional string: [undefined] and [""] are falsy. *)
Definition truthyString (o : option string) : bool :=
  match o with
  | Some s => negb (isEmpty s)
  | None => false
  end.

(** Truthiness of an optional boolean. *)
Definition truthyFlag (o : option bool) : bool :=
  match o with
  | Some b => b
  | None => false
  end.

(** [prev + t.text]: an absent text is appended as ["undefined"]. *)
Definition appendText (t : Genai.Transcription) (prev : string) : string :=
  match Genai.text t with
  | Some txt => (prev ++ txt)%string
  | None => (prev ++ "undefined")%string
  end.

(** Lines 98-106: the playback of one fragment on context [outCtx]. *)
Definition scheduleAudio (outCtx : nat) (env : Readings) : Js unit :=
  next <- gets nextStartTimeRef ;;
  modify (withNextStartTime (Qmax next (currentTime env))) ;;
  match decoded env with
  | None => throw
  | Some buffer =>
      source <- freshId ;;
      startAt <- gets nextStartTimeRef ;;
      modify (withBrowser (startSource source outCtx buffer startAt)) ;;
      modify (withNextStartTime (startAt + duration buffer)) ;;
      active <- gets sourcesRef ;;
      modify (withSources ({[source]} ∪ active))
  end.

Definition field {A} (f : Genai.LiveServerContent -> option A)
    (message : Genai.LiveServerMessage) : option A :=
  match Genai.serverContent message with
  | Some content => f content
  | None => None
  end.

(** [// Handle Audio] *)
Definition handleAudio (message : Genai.LiveServerMessage) (env : Readings)
  : Js unit :=
  data <- complete (audioData message) ;;
  when (truthyString data)
    (ctxs <- gets audioContextRef ;;
     match ctxs with
     | Some c => scheduleAudio (output c) env
     | None => ret tt
     end).

(** [// Handle Transcriptions] *)
Definition handleTranscriptions (message : Genai.LiveServerMessage) : Js unit :=
  match field Genai.inputTranscription message with
  | Some t => setCurrentInput (appendText t)
  | None => ret tt
  end ;;
  match field Genai.outputTranscription message with
  | Some t => setCurrentOutput (appendText t)
  | None => ret tt
  end.

(** [if (message.serverContent?.turnComplete)]: [currentInput] and
    [currentOutput] are the variables of the render in which the session
    was started. *)
Definition handleTurnComplete (cl : Closure) (message : Genai.LiveServerMessage)
    (env : Readings) : Js unit :=
  when (truthyFlag (field Genai.turnComplete message))
    (setHistory (fun prev =>
       prev ++
       [ {| Types.id := random1 env; Types.type := Types.user;
            Types.text := currentInput (scope cl);
            Types.timestamp := now1 env |};
         {| Types.id := random2 env; Types.type := Types.model;
            Types.text := currentOutput (scope cl);
            Types.timestamp := now2 env |} ]) ;;
     setCurrentInput (fun _ => ""%string) ;;
     setCurrentOutput (fun _ => ""%string)).

(** [if (message.serverContent?.interrupted)] *)
Definition handleInterrupted (message : Genai.LiveServerMessage) : Js unit :=
  when (truthyFlag (field Genai.interrupted message)) flushPlayback.

Definition onmessage (cl : Closure) (message : Genai.LiveServerMessage)
    (env : Readings) : Js unit :=
  handleAudio message env ;;
  handleTranscriptions message ;;
  handleTurnComplete cl message env ;;
  handleInterrupted message.

Definition onerror : Js unit :=
  setConnectionStatus error ;;
  setIsActive false.

Definition onclose : Js unit :=
  setConnectionStatus idle ;;
  setIsActive false.

(** The ['ended'] listener of a source node. *)
Definition onended (source : nat) : Js unit :=
  active <- gets sourcesRef ;;
  modify (withSources (active ∖ {[source]})).

(** ** Events *)

Inductive Event :=
| ClickStart (env : Devices)                 (* the round button *)
| SessionSettled (k : nat) (resolved : bool) (* [await sessionPromise] *)
| Open (k : nat)
| Message (k : nat) (message : Genai.LiveServerMessage) (env : Readings)
| Error (k : nat)
| Close (k : nat)
| AudioProcess (k : nat) (inputData : list Q)
| Ended (source : nat)
| ClickMute
| ClickPersona (v : Types.VoiceName).

(** The callbacks of session [k], when there is such a session. *)
Definition callback (k : nat) (f : Closure -> Js unit) : Js unit :=
  found <- gets (fun s => sessions (browser s) !! k) ;;
  match found with
  | Some cl => f cl
  | None => ret tt
  end.

(** The script processor of session [k] delivers frames once [onopen]
    attached it and until its context is closed. *)
Definition delivers (k : nat) (cl : Closure) (s : State) : bool :=
  bool_decide (k ∈ processors (browser s))
  && negb (bool_decide (inputCtx cl ∈ closedContexts (browser s))).

Definition handle (e : Event) : Js unit :=
  match e with
  | ClickStart env => handleStartSession env
  | SessionSettled k resolved => callback k (fun _ => awaitSession k resolved)
  | Open k => callback k (onopen k)
  | Message k message env => callback k (fun cl => onmessage cl message env)
  | Error k => callback k (fun _ => onerror)
  | Close k => callback k (fun _ => onclose)
  | AudioProcess k inputData =>
      callback k (fun cl =>
        live <- gets (delivers k cl) ;;
        when live (onaudioprocess k cl inputData))
  | Ended source => onended source
  | ClickMute =>
      muted <- gets (fun s => isMuted (render s)) ;;
      setIsMuted (negb muted)
  | ClickPersona v =>
      active <- gets (fun s => isActive (render s)) ;;
      when (negb active) (setSelectedVoice v)
  end.

(** A handler that throws leaves the state it reached: nothing catches
    the rejection of a callback. *)
Definition step (s : State) (e : Event) : State := snd (handle e s).

Definition run (events : list Event) (s : State) : State :=
  fold_left step events s.

(** ** The inbound events of the channel, as messages *)

Definition content (turn : option Genai.Content) (complete interrupt : option bool)
    (inputText outputText : option Genai.Transcription) : Genai.LiveServerMessage :=
  {| Genai.serverContent :=
       Some {| Genai.modelTurn := turn; Genai.turnComplete := complete;
               Genai.interrupted := interrupt;
               Genai.inputTranscription := inputText;
               Genai.outputTranscription := outputText |} |}.

(** An audio fragment. *)
Definition fragment (data : string) : Genai.LiveServerMessage :=
  content
    (Some {| Genai.parts :=
               Some [ {| Genai.inlineData :=
                           Some {| Genai.data := Some data;
                                   Genai.mimeType := None |} |} ] |})
    None None None None.

(** A partial transcript of the user, and of the model. *)
Definition partialInput (txt : string) : Genai.LiveServerMessage :=
  content None None None (Some {| Genai.text := Some txt |}) None.
Definition partialOutput (txt : string) : Genai.LiveServerMessage :=
  content None None None None (Some {| Genai.text := Some txt |}).

Definition turnCompleted : Genai.LiveServerMessage :=
  content None (Some true) None None None.

Definition interruption : Genai.LiveServerMessage :=
  content None None (Some true) None None.

(** ** Closed forms and observations used in the statements *)

(** The state after lines 98-106 ran for [buffer] at clock reading [now]. *)
Definition scheduled (outCtx : nat) (buffer : AudioBuffer) (now : Q) (s : State)
  : State :=
  let start := Qmax (nextStartTimeRef s) now in
  let source := nextId (browser s) in
  withSources ({[source]} ∪ sourcesRef s)
    (withNextStartTime (start + duration buffer)
      (withBrowser (startSource source outCtx buffer start)
        (withBrowser allocate (withNextStartTime start s)))).

(** The state after [flushPlayback]. *)
Definition flushed (s : State) : State :=
  withNextStartTime 0
    (withSources ∅ (withBrowser (stopSources (sourcesRef s)) s)).

(** The render after [// Handle Transcriptions]. *)
Definition transcribed (message : Genai.LiveServerMessage) (r : Render) : Render :=
  let r1 :=
    match field Genai.inputTranscription message with
    | Some t => renderCurrentInput (appendText t) r
    | None => r
    end in
  match field Genai.outputTranscription message with
  | Some t => renderCurrentOutput (appendText t) r1
  | None => r1
  end.

(** The two entries a turn-complete appends. *)
Definition turnEntries (cl : Closure) (env : Readings) : list Types.TranscriptionEntry :=
  [ {| Types.id := random1 env; Types.type := Types.user;
       Types.text := currentInput (scope cl); Types.timestamp := now1 env |};
    {| Types.id := random2 env; Types.type := Types.model;
       Types.text := currentOutput (scope cl); Types.timestamp := now2 env |} ].

(** The render after the turn-complete branch. *)
Definition turned (cl : Closure) (message : Genai.LiveServerMessage)
    (env : Readings) (r : Render) : Render :=
  if truthyFlag (field Genai.turnComplete message) then
    renderCurrentOutput (fun _ => ""%string)
      (renderCurrentInput (fun _ => ""%string)
        (renderHistory (fun prev => prev ++ turnEntries cl env) r))
  else r.

(** The state after the three last parts of [onmessage]. *)
Definition afterAudio (cl : Closure) (message : Genai.LiveServerMessage)
    (env : Readings) (s : State) : State :=
  let s' := withRender (fun r => turned cl message env (transcribed message r)) s in
  if truthyFlag (field Genai.interrupted message) then flushed s' else s'.

(** The four ways [// Handle Audio] can go. *)
Inductive AudioCase (message : Genai.LiveServerMessage) (env : Readings)
    (s : State) : Completion unit * State -> Prop :=
| NoAudio :
    (exists data, audioData message = Normal data
                  /\ (truthyString data = false \/ audioContextRef s = None)) ->
    AudioCase message env s (Normal tt, s)
| NoParts :
    audioData message = Throw ->
    AudioCase message env s (Throw, s)
| Undecoded data c :
    audioData message = Normal (Some data) ->
    isEmpty data = false ->
    audioContextRef s = Some c ->
    decoded env = None ->
    AudioCase message env s
      (Throw, withNextStartTime (Qmax (nextStartTimeRef s) (currentTime env)) s)
| Scheduled data c buffer :
    audioData message = Normal (Some data) ->
    isEmpty data = false ->
    audioContextRef s = Some c ->
    decoded env = Some buffer ->
    AudioCase message env s
      (Normal tt, scheduled (output c) buffer (currentTime env) s).

(** The playback timeline forgotten: every time on it set to 0. *)
Definition untimedSource (x : nat * AudioBuffer * Q) : nat * AudioBuffer * Q :=
  let '(c, buffer, _) := x in (c, buffer, 0%Q).

Definition untimedBrowser (b : Browser) : Browser :=
  {| nextId := nextId b; contexts := contexts b;
     closedContexts := closedContexts b; streams := streams b;
     stoppedStreams := stoppedStreams b; sessions := sessions b;
     closedSessions := closedSessions b; processors := processors b;
     started := untimedSource <$> started b;
     stoppedSources := stoppedSources b; sent := sent b |}.

Definition untimed (s : State) : State :=
  withNextStartTime 0 (withBrowser untimedBrowser s).

(** When source node [source] was told to start. *)
Definition startTime (s : State) (source : nat) : option Q :=
  match started (browser s) !! source with
  | Some (_, _, t) => Some t
  | None => None
  end.

(** A computation, an update and an observation that do not depend on
    the times of the timeline. *)
Definition Timeless {A} (c : Js A) : Prop :=
  forall s,
    fst (c s) = fst (c (untimed s))
    /\ untimed (snd (c s)) = untimed (snd (c (untimed s))).

Definition TimelessUpdate (f : State -> State) : Prop :=
  forall s, untimed (f s) = untimed (f (untimed s)).

Definition TimelessView {A} (g : State -> A) : Prop :=
  forall s, g (untimed s) = g s.

(** The closure of the first session started on a fresh page with every
    device granted, and the contexts that session holds. *)
Definition firstClosure : Closure :=
  {| scope := initialRender; inputCtx := 0; outputCtx := 1; stream := 2 |}.

Definition firstContexts : AudioContexts := {| input := 0; output := 1 |}.

(** The platform grants everything. *)
Definition granted : Devices :=
  {| inputContext := true; outputContext := true; microphone := true |}.

(** The microphone is denied. *)
Definition micDenied : Devices :=
  {| inputContext := true; outputContext := true; microphone := false |}.

(** A device failure: some device of [env] is not available. *)
Definition deviceFails (env : Devices) : bool :=
  negb (inputContext env && outputContext env && microphone env).

(** A fresh page on which the session was started, opened and its
    promise resolved: the session is object 3. *)
Definition established : State :=
  run [ClickStart granted; Open 3; SessionSettled 3 true] initial.

(** Readings with clock [now] and decoding outcome [buffer]. *)
Definition readings (now : Q) (buffer : option AudioBuffer) : Readings :=
  {| currentTime := now; decoded := buffer;
     random1 := "0.1"; now1 := 1000; random2 := "0.2"; now2 := 1000 |}.

(** A mono buffer of [n] silent frames at 24 kHz. *)
Definition silence (n : nat) : AudioBuffer :=
  {| sampleRate := 24000; channelData := [repeat 0%Q n] |}.

(** An established session with one unit of 24 frames scheduled. *)
Definition playing : State :=
  step established (Message 3 (fragment "AAAA") (readings 0 (Some (silence 24)))).

End App.

(* ================================================================== *)
(** * The primitive effects of the handlers *)

Module Effects.

Import App.

(** What one handler does to the state outside the render, as a sequence
    of effects.  Each effect is a state update the source performs, with the
    argument the source passes to it: an object is made at the next free id,
    a ref is set to an object just made, what is stopped or closed is what
    a ref holds. *)
Inductive Effect (s : State) : State -> Prop :=
| EffRender f :
    Effect s (withRender f s)
| EffContext :
    Effect s (withBrowser (addContext (nextId (browser s)) 16000)
                (withBrowser allocate s))
| EffContexts :
    Effect s (withAudioContextRef
                (Some {| input := nextId (browser s);
                         output := S (nextId (browser s)) |})
                (withBrowser (addContext (S (nextId (browser s))) 24000)
                  (withBrowser allocate
                    (withBrowser (addContext (nextId (browser s)) 16000)
                      (withBrowser allocate s)))))
| EffStream :
    Effect s (withStreamRef (Some (nextId (browser s)))
                (withBrowser (addStream (nextId (browser s)))
                  (withBrowser allocate s)))
| EffSession cl :
    audioContextRef s = Some {| input := inputCtx cl; output := outputCtx cl |} ->
    streamRef s = Some (stream cl) ->
    Effect s (withBrowser (addSession (nextId (browser s)) cl)
                (withBrowser allocate s))
| EffCloseSession k :
    sessionRef s = Some k ->
    Effect s (withBrowser (closeSession k) s)
| EffStopTracks m :
    streamRef s = Some m ->
    Effect s (withBrowser (stopTracks m) s)
| EffCloseContexts c :
    audioContextRef s = Some c ->
    Effect s (withBrowser (closeContext (output c))
                (withBrowser (closeContext (input c)) s))
| EffFlush :
    Effect s (flushed s)
| EffSessionRef k cl :
    sessions (browser s) !! k = Some cl ->
    Effect s (withSessionRef (Some k) s)
| EffProcessor k cl :
    sessions (browser s) !! k = Some cl ->
    Effect s (withBrowser (addProcessor k) s)
| EffClock t :
    Effect s (withNextStartTime (Qmax (nextStartTimeRef s) t) s)
| EffSchedule c buffer t :
    audioContextRef s = Some c ->
    Effect s (scheduled (output c) buffer t s)
| EffSend k cl inputData :
    sessions (browser s) !! k = Some cl ->
    isMuted (scope cl) = false ->
    Effect s (withBrowser (sendRealtimeInput k (SampleCodec.createPcmBlob inputData)) s)
| EffEnded source :
    Effect s (withSources (sourcesRef s ∖ {[source]}) s).

(** A computation whose effect on the state, started where [P] holds, is
    a sequence of these effects. *)
Definition TracesFrom {A} (P : State -> Prop) (c : Js A) : Prop :=
  forall s, P s -> rtc Effect s (snd (c s)).

Definition Traces {A} (c : Js A) : Prop := TracesFrom (fun _ => True) c.

(** ** Invariants *)

(** Every object was made below the next free id. *)
Definition Fresh (s : State) : Prop :=
  (forall n, is_Some (contexts (browser s) !! n) -> (n < nextId (browser s))%nat)
  /\ (forall n, n ∈ streams (browser s) -> (n < nextId (browser s))%nat)
  /\ (forall n, is_Some (sessions (browser s) !! n) -> (n < nextId (browser s))%nat)
  /\ (forall n, is_Some (started (browser s) !! n) -> (n < nextId (browser s))%nat).

(** The refs hold objects that exist, of the right kind; and where there is
    a session there are contexts and a stream. *)
Definition Held (s : State) : Prop :=
  (forall c, audioContextRef s = Some c ->
     contexts (browser s) !! input c = Some 16000%positive
     /\ contexts (browser s) !! output c = Some 24000%positive)
  /\ (forall m, streamRef s = Some m -> m ∈ streams (browser s))
  /\ (forall k, sessionRef s = Some k -> is_Some (sessions (browser s) !! k))
  /\ (forall k cl, sessions (browser s) !! k = Some cl ->
        is_Some (audioContextRef s) /\ is_Some (streamRef s)
        /\ contexts (browser s) !! inputCtx cl = Some 16000%positive
        /\ contexts (browser s) !! outputCtx cl = Some 24000%positive
        /\ stream cl ∈ streams (browser s)).

(** The end of a unit on the timeline. *)
Definition unitEnd (x : nat * WebAudio.AudioBuffer * Q) : Q :=
  let '(_, buffer, t) := x in (t + WebAudio.duration buffer)%Q.

Definition unitStart (x : nat * WebAudio.AudioBuffer * Q) : Q :=
  let '(_, _, t) := x in t.

(** The active set and the timeline agree. *)
Definition Orderly (s : State) : Prop :=
  (forall n, n ∈ sourcesRef s -> is_Some (started (browser s) !! n))
  /\ (forall n, n ∈ stoppedSources (browser s) -> is_Some (started (browser s) !! n))
  /\ (forall n, is_Some (started (browser s) !! n) -> (n < nextId (browser s))%nat)
  /\ (forall n, n ∈ sourcesRef s -> n ∉ stoppedSources (browser s))
  /\ (0 <= nextStartTimeRef s)%Q
  /\ (forall n x, n ∈ sourcesRef s -> started (browser s) !! n = Some x ->
        (0 <= unitStart x)%Q /\ (unitEnd x <= nextStartTimeRef s)%Q)
  /\ (forall n m x y, n ∈ sourcesRef s -> m ∈ sourcesRef s -> (n < m)%nat ->
        started (browser s) !! n = Some x -> started (browser s) !! m = Some y ->
        (unitEnd x <= unitStart y)%Q).

(** Every frame handed over belongs to a session that was started while
    not muted. *)
Definition SentByUnmuted (s : State) : Prop :=
  forall k media, (k, media) ∈ sent (browser s) ->
    exists cl, sessions (browser s) !! k = Some cl /\ isMuted (scope cl) = false.

(** Stream [m] was made, is not the stream held, and was not stopped. *)
Definition OrphanStream (m : nat) (s : State) : Prop :=
  (m < nextId (browser s))%nat
  /\ streamRef s <> Some m
  /\ m ∉ stoppedStreams (browser s).

(** Context [c] was made, is not one of the contexts held, and was not
    closed. *)
Definition OrphanContext (c : nat) (s : State) : Prop :=
  (c < nextId (browser s))%nat
  /\ (forall held, audioContextRef s = Some held -> input held <> c /\ output held <> c)
  /\ c ∉ closedContexts (browser s).

(** Unit [n] was started, is out of the active set, and was not stopped. *)
Definition Retired (n : nat) (s : State) : Prop :=
  (n < nextId (browser s))%nat
  /\ (n ∉ sourcesRef s)
  /\ (n ∉ stoppedSources (browser s)).

(** ** What one handler does to the render *)

Inductive RenderStep (r : Render) : Render -> Prop :=
| RenderSame :
    RenderStep r r
| RenderStop :
    isActive r = true ->
    RenderStep r (renderConnectionStatus idle (renderIsActive false r))
| RenderStart :
    isActive r = false ->
    RenderStep r (renderConnectionStatus connecting r)
| RenderStartFailed :
    isActive r = false ->
    RenderStep r (renderConnectionStatus error (renderConnectionStatus connecting r))
| RenderRejected :
    RenderStep r (renderConnectionStatus error r)
| RenderOpen :
    RenderStep r (renderIsActive true (renderConnectionStatus connected r))
| RenderMessage cl message env :
    RenderStep r (turned cl message env (transcribed message r))
| RenderError :
    RenderStep r (renderIsActive false (renderConnectionStatus error r))
| RenderClose :
    RenderStep r (renderIsActive false (renderConnectionStatus idle r))
| RenderMute :
    RenderStep r (renderIsMuted (negb (isMuted r)) r)
| RenderPersona v :
    isActive r = false ->
    RenderStep r (renderSelectedVoice v r).

(** A history made of turns: a user entry, then a model entry, and so on. *)
Inductive Turns : list Types.TranscriptionEntry -> Prop :=
| TurnsNil : Turns []
| TurnsCons u m rest :
    Types.type u = Types.user -> Types.type m = Types.model ->
    Turns rest -> Turns (u :: m :: rest).

(** The status and the activity flag agree. *)
Definition Coherent (r : Render) : Prop :=
  (connectionStatus r = connected -> isActive r = true)
  /\ (isActive r = true ->
      connectionStatus r = connected \/ connectionStatus r = error).

(** The events of a running session that are neither a click on the round
    button nor the end of the connection. *)
Definition midSession (e : Event) : bool :=
  match e with
  | Message _ _ _ | AudioProcess _ _ | Ended _ | ClickMute | ClickPersona _ => true
  | ClickStart _ | SessionSettled _ _ | Open _ | Error _ | Close _ => false
  end.

(** A message that carries one partial transcript of [speaker] and nothing
    else. *)
Definition partial (speaker : Types.Speaker) (t : Genai.Transcription)
  : Genai.LiveServerMessage :=
  match speaker with
  | Types.user => content None None None (Some t) None
  | Types.model => content None None None None (Some t)
  end.

(** What [prev + t.text] adds to [prev]. *)
Definition piece (t : Genai.Transcription) : string :=
  match Genai.text t with
  | Some txt => txt
  | None => "undefined"
  end.

(** The pieces of [speaker] among tagged partial transcripts, joined in
    order. *)
Fixpoint spoken (speaker : Types.Speaker)
    (parts : list (Types.Speaker * Genai.Transcription * Readings)) : string :=
  match parts with
  | [] => ""
  | (who, t, _) :: rest =>
      match speaker, who with
      | Types.user, Types.user | Types.model, Types.model =>
          (piece t ++ spoken speaker rest)%string
      | _, _ => spoken speaker rest
      end
  end.

(** The events that deliver tagged partial transcripts to session [k]. *)
Definition transcripts (k : nat)
    (parts : list (Types.Speaker * Genai.Transcription * Readings)) : list Event :=
  map (fun '(who, t, env) => Message k (partial who t) env) parts.

(** What a session holds and what the platform made, closed and stopped
    for it, with the two flags of the round button. *)
Definition holdings (s : State) :=
  (sessionRef s, audioContextRef s, streamRef s,
   (contexts (browser s), closedContexts (browser s)),
   (streams (browser s), stoppedStreams (browser s)),
   (sessions (browser s), closedSessions (browser s), processors (browser s)),
   (isActive (render s), connectionStatus (render s))).

(** ** Runs used as examples *)

(** A start that is granted every device, the open of its session and the
    resolution of its promise: contexts 0 and 1, stream 2, session 3. *)
Definition opening : list Event :=
  [ClickStart granted; Open 3; SessionSettled 3 true].

(** Two fragments played on the opened session: units 4 and 5. *)
Definition twoUnits : list Event :=
  opening ++ [Message 3 (fragment "AAAA") (readings 0 (Some (silence 24)));
              Message 3 (fragment "AAAA") (readings 0 (Some (silence 48)))].

(** A session started while muted, unmuted once it is open, and one frame
    captured after that. *)
Definition mutedStart : list Event :=
  [ClickMute; ClickStart granted; Open 3; SessionSettled 3 true; ClickMute;
   AudioProcess 3 [0%Q]].

(** A session that ended on an error. *)
Definition failedSession : list Event := opening ++ [Error 3].

(** A message with a model turn that has no [parts], a turn-complete and an
    interrupt. *)
Definition partless : Genai.LiveServerMessage :=
  content (Some {| Genai.parts := None |}) (Some true) (Some true) None None.

(** A turn-complete whose first part carries the empty string. *)
Definition silentTurn : Genai.LiveServerMessage :=
  content
    (Some {| Genai.parts :=
               Some [ {| Genai.inlineData :=
                           Some {| Genai.data := Some ""%string;
                                   Genai.mimeType := None |} |} ] |})
    (Some true) None None None.

(** Four partial transcripts, the third without text. *)
Definition dialogue : list (Types.Speaker * Genai.Transcription * Readings) :=
  [ (Types.user, {| Genai.text := Some "Hel"%string |}, readings 0 None);
    (Types.model, {| Genai.text := Some "Hi"%string |}, readings 0 None);
    (Types.user, {| Genai.text := None |}, readings 0 None);
    (Types.user, {| Genai.text := Some "lo"%string |}, readings 0 None) ].

(** Traffic of the opened session: a fragment, a frame, a mute click, the
    end of the unit, a persona click and an interruption. *)
Definition traffic : list Event :=
  [Message 3 (fragment "AAAA") (readings 0 (Some (silence 24)));
   AudioProcess 3 [0%Q]; ClickMute; Ended 4; ClickPersona Types.KORE;
   Message 3 interruption (readings 1 None)].

End Effects.

(* ================================================================== *)
(** * What the component renders (the conditions of the JSX) *)

Module View.

Import App.

(** [history.length === 0 && !currentInput && !currentOutput]: the
    "Ready for conversation" placeholder is rendered. *)
Definition showsPlaceholder (r : Render) : bool :=
  Nat.eqb (length (history r)) 0
  && isEmpty (currentInput r) && isEmpty (currentOutput r).

(** [selectedVoice === p.id]: the card of persona [p] carries the ring. *)
Definition highlighted (r : Render) (p : Types.VoiceName) : bool :=
  match selectedVoice r, p with
  | Types.ZEPHYR, Types.ZEPHYR | Types.PUCK, Types.PUCK | Types.KORE, Types.KORE
  | Types.FENRIR, Types.FENRIR | Types.CHARON, Types.CHARON => true
  | _, _ => false
  end.

End View.

(* ================================================================== *)
(** * The personas of [src/types.ts] *)

Module Personas.

Import Types.

(** The string value of each member of the enum. *)
Definition voiceValue (v : VoiceName) : string :=
  match v with
  | ZEPHYR => "Zephyr"
  | PUCK => "Puck"
  | KORE => "Kore"
  | FENRIR => "Fenrir"
  | CHARON => "Charon"
  end.

Record VoicePersona := {
  id : VoiceName;
  label : string;
  description : string;
  color : string
}.

Definition PERSONAS : list VoicePersona :=
  [ {| id := ZEPHYR; label := "Zephyr"; description := "Breezy & Energetic";
       color := "from-blue-400 to-cyan-400" |};
    {| id := PUCK; label := "Puck"; description := "Mischievous & Quick";
       color := "from-purple-400 to-pink-400" |};
    {| id := KORE; label := "Kore"; description := "Warm & Natural";
       color := "from-orange-400 to-yellow-400" |};
    {| id := FENRIR; label := "Fenrir"; description := "Deep & Authoritative";
       color := "from-red-400 to-orange-400" |};
    {| id := CHARON; label := "Charon"; description := "Calm & Wise";
       color := "from-indigo-400 to-purple-400" |} ].

End Personas.

(* ================================================================== *)
(** * Facts about the sample codec *)

Section Codec.

Import SampleCodec.
Local Open Scope Z_scope.

(** Checks by enumeration. *)

Local Lemma upTo_In (n : nat) (z : Z) : 0 <= z < Z.of_nat n -> In z (upTo n).
Proof.
  intros H. unfold upTo. apply in_map_iff. exists (Z.to_nat z). split.
  - lia.
  - apply in_seq. lia.
Qed.

Local Lemma all2 (P : Z -> Z -> bool) (n m : nat) :
  forallb (fun a => forallb (P a) (upTo m)) (upTo n) = true ->
  forall a b, 0 <= a < Z.of_nat n -> 0 <= b < Z.of_nat m -> P a b = true.
Proof.
  intros H a b Ha Hb.
  rewrite forallb_forall in H. specialize (H a (upTo_In _ _ Ha)).
  rewrite forallb_forall in H. exact (H b (upTo_In _ _ Hb)).
Qed.

Local Lemma all1 (P : Z -> bool) (n : nat) :
  forallb P (upTo n) = true -> forall a, 0 <= a < Z.of_nat n -> P a = true.
Proof.
  intros H a Ha. rewrite forallb_forall in H. exact (H a (upTo_In _ _ Ha)).
Qed.

(** Every sextet has its own character, and none is the padding. *)
Lemma charSextet_sextetChar (n : Z) :
  0 <= n < 64 ->
  charSextet (sextetChar n) = Some n /\ Ascii.eqb (sextetChar n) pad = false.
Proof.
  intros H.
  pose (P := fun n => match charSextet (sextetChar n) with
                      | Some m => (m =? n) && negb (Ascii.eqb (sextetChar n) pad)
                      | None => false
                      end).
  assert (HP : P n = true) by (apply (all1 P 64); [vm_compute; reflexivity | lia]).
  unfold P in HP. destruct (charSextet (sextetChar n)) as [m|]; [|discriminate].
  apply andb_true_iff in HP. destruct HP as [H1 H2].
  apply Z.eqb_eq in H1. apply negb_true_iff in H2. subst m. auto.
Qed.

Lemma sextet1_range a : isByte a -> 0 <= sextet1 a < 64.
Proof.
  intros H.
  assert (E : ((0 <=? sextet1 a) && (sextet1 a <? 64)) = true)
    by (apply (all1 (fun a => (0 <=? sextet1 a) && (sextet1 a <? 64)) 256);
        [vm_compute; reflexivity | exact H]).
  lia.
Qed.

Lemma sextet2_range a b : isByte a -> isByte b -> 0 <= sextet2 a b < 64.
Proof.
  intros Ha Hb.
  assert (E : ((0 <=? sextet2 a b) && (sextet2 a b <? 64)) = true)
    by (apply (all2 (fun a b => (0 <=? sextet2 a b) && (sextet2 a b <? 64)) 256 256);
        [vm_compute; reflexivity | exact Ha | exact Hb]).
  lia.
Qed.

Lemma sextet3_range b c : isByte b -> isByte c -> 0 <= sextet3 b c < 64.
Proof.
  intros Hb Hc.
  assert (E : ((0 <=? sextet3 b c) && (sextet3 b c <? 64)) = true)
    by (apply (all2 (fun b c => (0 <=? sextet3 b c) && (sextet3 b c <? 64)) 256 256);
        [vm_compute; reflexivity | exact Hb | exact Hc]).
  lia.
Qed.

Lemma sextet4_range c : isByte c -> 0 <= sextet4 c < 64.
Proof.
  intros H.
  assert (E : ((0 <=? sextet4 c) && (sextet4 c <? 64)) = true)
    by (apply (all1 (fun c => (0 <=? sextet4 c) && (sextet4 c <? 64)) 256);
        [vm_compute; reflexivity | exact H]).
  lia.
Qed.

(** The first byte comes back from the first two sextets. *)
Lemma byte1_sextets a b : isByte a -> isByte b -> byte1 (sextet1 a) (sextet2 a b) = a.
Proof.
  intros Ha Hb. apply Z.eqb_eq.
  apply (all2 (fun a b => byte1 (sextet1 a) (sextet2 a b) =? a) 256 256);
    [vm_compute; reflexivity | exact Ha | exact Hb].
Qed.

(** The middle byte: of [a] only the low two bits, of [c] only the high
    two bits take part, so these are enumerated instead of [a] and [c]. *)
Lemma byte2_sextets a b c :
  isByte a -> isByte b -> isByte c -> byte2 (sextet2 a b) (sextet3 b c) = b.
Proof.
  intros Ha Hb Hc.
  pose (lowA := Z.land a 3). pose (highC := Z.shiftr c 6).
  assert (HA : 0 <= lowA < 4).
  { assert (E : ((0 <=? Z.land a 3) && (Z.land a 3 <? 4)) = true)
      by (apply (all1 (fun a => (0 <=? Z.land a 3) && (Z.land a 3 <? 4)) 256);
          [vm_compute; reflexivity | exact Ha]).
    unfold lowA. lia. }
  assert (HC : 0 <= highC < 4).
  { assert (E : ((0 <=? Z.shiftr c 6) && (Z.shiftr c 6 <? 4)) = true)
      by (apply (all1 (fun c => (0 <=? Z.shiftr c 6) && (Z.shiftr c 6 <? 4)) 256);
          [vm_compute; reflexivity | exact Hc]).
    unfold highC. lia. }
  unfold sextet2, sextet3. fold lowA highC.
  pose (P := fun p b =>
    byte2 (Z.lor (Z.shiftl (p / 4) 4) (Z.shiftr b 4))
          (Z.lor (Z.shiftl (Z.land b 15) 2) (p mod 4)) =? b).
  assert (HP : P (4 * lowA + highC) b = true)
    by (apply (all2 P 16 256); [vm_compute; reflexivity | lia | exact Hb]).
  unfold P in HP. apply Z.eqb_eq in HP.
  replace ((4 * lowA + highC) / 4) with lowA in HP
    by (Z.div_mod_to_equations; lia).
  replace ((4 * lowA + highC) mod 4) with highC in HP
    by (Z.div_mod_to_equations; lia).
  exact HP.
Qed.

Lemma byte3_sextets b c : isByte b -> isByte c -> byte3 (sextet3 b c) (sextet4 c) = c.
Proof.
  intros Hb Hc. apply Z.eqb_eq.
  apply (all2 (fun b c => byte3 (sextet3 b c) (sextet4 c) =? c) 256 256);
    [vm_compute; reflexivity | exact Hb | exact Hc].
Qed.

(** Lists are handled three elements at a time. *)
Lemma list_ind3 {A} (P : list A -> Prop) :
  P [] -> (forall a, P [a]) -> (forall a b, P [a; b]) ->
  (forall a b c l, P l -> P (a :: b :: c :: l)) ->
  forall l, P l.
Proof.
  intros H0 H1 H2 H3.
  fix IH 1. intros [|a [|b [|c l]]]; [exact H0 | apply H1 | apply H2 |].
  apply H3. apply IH.
Qed.

(** Text-to-binary inverts binary-to-text on every byte sequence. *)
Lemma atob_btoa (bytes : list Z) : Forall isByte bytes -> atob (btoa bytes) = Some bytes.
Proof.
  induction bytes as [|a|a b|a b c l IH] using list_ind3; intros HF.
  - reflexivity.
  - inversion HF as [|? ? Ha _]; subst.
    assert (H0 : isByte 0) by (unfold isByte; lia).
    destruct (charSextet_sextetChar _ (sextet1_range a Ha)) as [E1 _].
    destruct (charSextet_sextetChar _ (sextet2_range a 0 Ha H0)) as [E2 _].
    cbn [btoa atob]. rewrite E1, E2. cbn.
    now rewrite byte1_sextets.
  - inversion HF as [|? ? Ha HF']; subst. inversion HF' as [|? ? Hb _]; subst.
    assert (H0 : isByte 0) by (unfold isByte; lia).
    destruct (charSextet_sextetChar _ (sextet1_range a Ha)) as [E1 _].
    destruct (charSextet_sextetChar _ (sextet2_range a b Ha Hb)) as [E2 _].
    destruct (charSextet_sextetChar _ (sextet3_range b 0 Hb H0)) as [E3 N3].
    cbn [btoa atob]. rewrite E1, E2, E3, N3. cbn.
    now rewrite byte1_sextets, byte2_sextets.
  - inversion HF as [|? ? Ha HF1]; subst. inversion HF1 as [|? ? Hb HF2]; subst.
    inversion HF2 as [|? ? Hc HF3]; subst.
    destruct (charSextet_sextetChar _ (sextet1_range a Ha)) as [E1 _].
    destruct (charSextet_sextetChar _ (sextet2_range a b Ha Hb)) as [E2 _].
    destruct (charSextet_sextetChar _ (sextet3_range b c Hb Hc)) as [E3 N3].
    destruct (charSextet_sextetChar _ (sextet4_range c Hc)) as [E4 N4].
    cbn [btoa]. cbn [atob]. rewrite E1, E2, E3, E4, N3, N4. cbn [andb].
    rewrite (IH HF3).
    now rewrite byte1_sextets, byte2_sextets, byte3_sextets.
Qed.


(** ** PCM *)

Lemma int16_split (u : Z) :
  0 <= u < 65536 ->
  isByte (Z.land u 255) /\ isByte (Z.shiftr u 8)
  /\ Z.lor (Z.land u 255) (Z.shiftl (Z.shiftr u 8) 8) = u.
Proof.
  intros H.
  pose (P := fun hi lo =>
    let u := 256 * hi + lo in
    (0 <=? Z.land u 255) && (Z.land u 255 <? 256)
    && ((0 <=? Z.shiftr u 8) && (Z.shiftr u 8 <? 256))
    && (Z.lor (Z.land u 255) (Z.shiftl (Z.shiftr u 8) 8) =? u)).
  assert (HP : P (u / 256) (u mod 256) = true).
  { apply (all2 P 256 256); [vm_compute; reflexivity | |];
      Z.div_mod_to_equations; lia. }
  unfold P in HP. cbv zeta in HP.
  replace (256 * (u / 256) + u mod 256) with u in HP
    by (Z.div_mod_to_equations; lia).
  unfold isByte. lia.
Qed.

Lemma toInt16_range (z : Z) : -32768 <= toInt16 z <= 32767.
Proof. unfold toInt16. Z.div_mod_to_equations. lia. Qed.

Lemma toInt16_small (z : Z) : -32768 <= z <= 32767 -> toInt16 z = z.
Proof. intros H. unfold toInt16. Z.div_mod_to_equations. lia. Qed.

Lemma toInt16_mod (z : Z) : toInt16 (z mod 65536) = toInt16 z.
Proof. unfold toInt16. now rewrite Z.add_mod_idemp_l. Qed.

(** Reading back the two bytes of a stored sample gives the sample. *)
Lemma pcmInt16_pcmBytes (samples : list Q) :
  pcmInt16 (pcmBytes samples) = Some (map (fun x => toInt16 (quantize x)) samples).
Proof.
  induction samples as [|x l IH]; [reflexivity|].
  cbn [pcmBytes flat_map map]. fold (pcmBytes l).
  unfold int16Bytes at 1. cbn [app pcmInt16]. rewrite IH.
  unfold bytesInt16.
  destruct (int16_split (toInt16 (quantize x) mod 65536)) as (_ & _ & E).
  { apply Z.mod_pos_bound. lia. }
  rewrite E, toInt16_mod, toInt16_small by apply toInt16_range.
  reflexivity.
Qed.

Lemma pcmBytes_bytes (samples : list Q) : Forall isByte (pcmBytes samples).
Proof.
  induction samples as [|x l IH]; [constructor|].
  cbn [pcmBytes flat_map]. fold (pcmBytes l).
  destruct (int16_split (toInt16 (quantize x) mod 65536)) as (H1 & H2 & _).
  { apply Z.mod_pos_bound. lia. }
  unfold int16Bytes. cbn [app].
  constructor; [exact H1 | constructor; [exact H2 | exact IH]].
Qed.

Lemma everyNth_all (l : list Q) : everyNth 1 0 l = l.
Proof. induction l as [|x l IH]; cbn; [reflexivity | now rewrite IH]. Qed.

(** What decoding an encoded frame yields: each sample quantized, then
    divided by 32768. *)
Lemma decodeToSamples_encode (samples : list Q) :
  decodeToSamples (encode samples)
  = Some (map (fun x => (toInt16 (quantize x) # 32768)%Q) samples).
Proof.
  unfold decodeToSamples, decode, encode.
  rewrite atob_btoa by apply pcmBytes_bytes.
  unfold toAudioBuffer. rewrite pcmInt16_pcmBytes.
  cbn [seq map WebAudio.channelData nth]. rewrite everyNth_all, map_map. reflexivity.
Qed.

(** ** Quantization *)

(** [Qfloor] brackets its argument. *)
Lemma floor_bracket (y : Q) :
  (inject_Z (Qfloor y) <= y /\ y < inject_Z (Qfloor y) + 1)%Q.
Proof.
  split; [apply Qfloor_le|].
  pose proof (Qlt_floor y) as H. now rewrite inject_Z_plus in H.
Qed.

Lemma quantize_range (x : Q) : inRange x -> -32767 <= quantize x <= 32767.
Proof.
  intros [Hl Hu]. unfold quantize.
  destruct (floor_bracket (x * 32767 + (1 # 2))) as [Hf Hc].
  set (n := Qfloor (x * 32767 + (1 # 2))) in *.
  assert (A : (inject_Z n <= 65535 # 2)%Q /\ (- (65535 # 2) < inject_Z n)%Q)
    by (revert Hf Hc; generalize (inject_Z n); intros q Hf Hc; split; lra).
  destruct A as [A B].
  clearbody n. unfold Qle, Qlt in A, B. cbn in A, B. lia.
Qed.

(** The reconstruction error of one sample is at most 3/65536. *)
Lemma quantize_error (x : Q) :
  inRange x -> (Qabs ((quantize x # 32768) - x) <= 3 # 65536)%Q.
Proof.
  intros [Hl Hu]. unfold quantize.
  destruct (floor_bracket (x * 32767 + (1 # 2))) as [Hf Hc].
  set (n := Qfloor (x * 32767 + (1 # 2))) in *.
  assert (E : (n # 32768 == inject_Z n * (1 # 32768))%Q).
  { unfold Qeq. cbn. lia. }
  rewrite E. apply Qabs_Qle_condition.
  revert Hf Hc. generalize (inject_Z n). intros q Hf Hc.
  split; lra.
Qed.

Lemma SampleCodec_toInt16_quantize (x : Q) :
  inRange x -> toInt16 (quantize x) = quantize x.
Proof.
  intros H. apply toInt16_small. pose proof (quantize_range x H). lia.
Qed.

End Codec.

(** C3, as stated, fails: the sample 114689/131072 (0.875 + 2^-17, a value
    a 32-bit float holds exactly) is in [-1,1], is stored as 28671 and comes
    back as 28671/32768, which is 5/131072 away: more than 1/32768. *)
Lemma roundTrip_exceeds_one_step :
  let x := (114689 # 131072)%Q in
  SampleCodec.inRange x
  /\ SampleCodec.decodeToSamples (SampleCodec.encode [x]) = Some [(28671 # 32768)%Q]
  /\ ~ SampleCodec.roundTrips (1 # 32768) [x].
Proof.
  cbv zeta. split; [|split].
  - split; unfold Qle; cbn; lia.
  - vm_compute. reflexivity.
  - intros (ys & Hdec & Hall).
    assert (E : SampleCodec.decodeToSamples
                  (SampleCodec.encode [(114689 # 131072)%Q])
                = Some [(28671 # 32768)%Q]) by (vm_compute; reflexivity).
    rewrite E in Hdec. injection Hdec as <-.
    inversion Hall as [|? ? ? ? Hle _]; subst.
    revert Hle. vm_compute. intros Hle. apply Hle. reflexivity.
Qed.

(** C3 (amended): for every sample sequence with all values in [-1,1],
    decoding its encoded form reconstructs it to within 3/65536 per element
    (1.5 quantization steps: half a step from rounding, up to one from
    scaling by 32767 but dividing by 32768). *)
Theorem roundTrip_within_three_half_steps (samples : list Q) :
  Forall SampleCodec.inRange samples ->
  SampleCodec.roundTrips (3 # 65536) samples.
Proof.
  intros HF. unfold SampleCodec.roundTrips.
  rewrite decodeToSamples_encode. eexists. split; [reflexivity|].
  induction HF as [|x l Hx HF IH]; cbn [map]; constructor; [|exact IH].
  rewrite SampleCodec_toInt16_quantize by exact Hx.
  now apply quantize_error.
Qed.

Lemma roundTrip_within_three_half_steps_witness :
  Forall SampleCodec.inRange [1%Q; (-1)%Q; (1 # 2)%Q; (114689 # 131072)%Q]
  /\ SampleCodec.roundTrips (3 # 65536) [1%Q; (-1)%Q; (1 # 2)%Q; (114689 # 131072)%Q].
Proof.
  assert (H : Forall SampleCodec.inRange [1%Q; (-1)%Q; (1 # 2)%Q; (114689 # 131072)%Q]).
  { repeat (constructor; [split; unfold Qle; cbn; lia|]). constructor. }
  split; [exact H | exact (roundTrip_within_three_half_steps _ H)].
Defined.

(* ================================================================== *)
(** * Facts about the component *)

Section Playback.

Import App.
Local Open Scope Q_scope.

Lemma scheduleAudio_decoded outCtx env buffer s :
  decoded env = Some buffer ->
  scheduleAudio outCtx env s
  = (Normal tt, scheduled outCtx buffer (currentTime env) s).
Proof.
  intros H. unfold scheduleAudio, bind, gets, modify, freshId, ret.
  rewrite H. reflexivity.
Qed.

Lemma scheduleAudio_undecoded outCtx env s :
  decoded env = None ->
  scheduleAudio outCtx env s
  = (Throw, withNextStartTime (Qmax (nextStartTimeRef s) (currentTime env)) s).
Proof.
  intros H. unfold scheduleAudio, bind, gets, modify, throw.
  rewrite H. reflexivity.
Qed.

Lemma flushPlayback_flushed s : flushPlayback s = (Normal tt, flushed s).
Proof. reflexivity. Qed.

Lemma handleAudio_cases message env s :
  AudioCase message env s (handleAudio message env s).
Proof.
  unfold handleAudio, bind, complete, when, gets.
  destruct (audioData message) as [[data|]|] eqn:E.
  - cbn [truthyString]. destruct (isEmpty data) eqn:Ed; cbn [negb].
    + apply NoAudio. exists (Some data). split; [exact E|left].
      cbn. now rewrite Ed.
    + destruct (audioContextRef s) as [c|] eqn:Ec.
      * destruct (decoded env) as [buffer|] eqn:Eb.
        -- rewrite (scheduleAudio_decoded _ _ _ _ Eb). eapply Scheduled; eauto.
        -- rewrite (scheduleAudio_undecoded _ _ _ Eb). eapply Undecoded; eauto.
      * apply NoAudio. exists (Some data). auto.
  - apply NoAudio. exists None. auto.
  - now apply NoParts.
Qed.

Lemma handleTranscriptions_run message s :
  handleTranscriptions message s = (Normal tt, withRender (transcribed message) s).
Proof.
  unfold handleTranscriptions, transcribed, bind, ret, setCurrentInput,
    setCurrentOutput, modify.
  destruct (field Genai.inputTranscription message),
           (field Genai.outputTranscription message); destruct s; reflexivity.
Qed.

Lemma handleTurnComplete_run cl message env s :
  handleTurnComplete cl message env s
  = (Normal tt, withRender (turned cl message env) s).
Proof.
  unfold handleTurnComplete, turned, when.
  destruct (truthyFlag (field Genai.turnComplete message)); destruct s; reflexivity.
Qed.

(** What follows [// Handle Audio] never throws. *)
Lemma onmessage_run cl message env s :
  onmessage cl message env s
  = match handleAudio message env s with
    | (Normal _, s') => (Normal tt, afterAudio cl message env s')
    | (Throw, s') => (Throw, s')
    end.
Proof.
  unfold onmessage, bind at 1.
  destruct (handleAudio message env s) as [[[]|] s']; [|reflexivity].
  unfold bind. rewrite handleTranscriptions_run, handleTurnComplete_run.
  unfold handleInterrupted, afterAudio, when.
  destruct (truthyFlag (field Genai.interrupted message)); destruct s'; reflexivity.
Qed.

Lemma handle_message k cl message env s :
  sessions (browser s) !! k = Some cl ->
  handle (Message k message env) s = onmessage cl message env s.
Proof.
  intros H. unfold handle, callback, bind, gets. now rewrite H.
Qed.

Lemma handle_fragment k cl data env c s :
  sessions (browser s) !! k = Some cl ->
  isEmpty data = false ->
  audioContextRef s = Some c ->
  handle (Message k (fragment data) env) s = scheduleAudio (output c) env s.
Proof.
  intros Hk Hd Hc. rewrite (handle_message _ _ _ _ _ Hk), onmessage_run.
  unfold handleAudio, bind, complete, when, gets.
  cbn [audioData fragment content Genai.serverContent Genai.modelTurn Genai.parts
       Genai.inlineData Genai.data truthyString].
  rewrite Hd. cbn [negb]. rewrite Hc.
  destruct (scheduleAudio (output c) env s) as [[[]|] s']; [|reflexivity].
  destruct s'; reflexivity.
Qed.

Lemma step_fragment k cl data env c buffer s :
  sessions (browser s) !! k = Some cl ->
  isEmpty data = false ->
  audioContextRef s = Some c ->
  decoded env = Some buffer ->
  step s (Message k (fragment data) env)
  = scheduled (output c) buffer (currentTime env) s.
Proof.
  intros Hk Hd Hc Hb. unfold step.
  now rewrite (handle_fragment _ _ _ _ _ _ Hk Hd Hc), (scheduleAudio_decoded _ _ _ _ Hb).
Qed.

Lemma handle_interruption k cl env s :
  sessions (browser s) !! k = Some cl ->
  handle (Message k interruption env) s = (Normal tt, flushed s).
Proof.
  intros Hk. rewrite (handle_message _ _ _ _ _ Hk), onmessage_run.
  destruct s; reflexivity.
Qed.

(** *** Observations on the closed forms *)

Lemma startTime_scheduled outCtx buffer now s :
  startTime (scheduled outCtx buffer now s) (nextId (browser s))
  = Some (Qmax (nextStartTimeRef s) now).
Proof.
  unfold startTime, scheduled. cbn. now rewrite lookup_insert_eq.
Qed.

Lemma startTime_scheduled_other outCtx buffer now s n :
  n <> nextId (browser s) ->
  startTime (scheduled outCtx buffer now s) n = startTime s n.
Proof.
  intros H. unfold startTime, scheduled. cbn. now rewrite lookup_insert_ne.
Qed.

Lemma withBrowser_stop_nothing s : withBrowser (stopSources ∅) s = s.
Proof.
  destruct s as [r sr ar nr so st b]. unfold withBrowser, stopSources. cbn.
  assert (E : ∅ ∪ stoppedSources b = stoppedSources b) by apply (left_id_L ∅ (∪)).
  rewrite E. destruct b; reflexivity.
Qed.

Lemma duration_nonneg (b : WebAudio.AudioBuffer) : 0 <= WebAudio.duration b.
Proof. unfold WebAudio.duration, Qle. cbn. lia. Qed.

End Playback.

Section Timeline.

Import App.
Local Open Scope Q_scope.

(** A session [k] is set up and an output context is held. *)
Variables (s : State) (k : nat) (cl : Closure) (c : AudioContexts).
Hypothesis session : sessions (browser s) !! k = Some cl.
Hypothesis context : audioContextRef s = Some c.

(** C1: every fragment that decodes starts at
    [max(nextStartTime, clock)] and leaves [nextStartTime] at that start
    plus its duration; three fragments submitted while the clock reads at
    most 0, on a timeline at 0, start at 0, d1 and d1+d2; a second fragment
    submitted at clock d1+5 after a first one started at 0 starts at d1+5,
    not at d1. *)
Theorem playback_chains_buffers :
  (forall data env buffer,
     isEmpty data = false ->
     decoded env = Some buffer ->
     let s' := step s (Message k (fragment data) env) in
     let start := Qmax (nextStartTimeRef s) (currentTime env) in
     startTime s' (nextId (browser s)) = Some start
     /\ nextStartTimeRef s' = start + WebAudio.duration buffer)
  /\ (forall data1 data2 data3 env1 env2 env3 b1 b2 b3,
     isEmpty data1 = false ->
     isEmpty data2 = false ->
     isEmpty data3 = false ->
     decoded env1 = Some b1 -> decoded env2 = Some b2 -> decoded env3 = Some b3 ->
     nextStartTimeRef s == 0 ->
     currentTime env1 <= 0 -> currentTime env2 <= 0 -> currentTime env3 <= 0 ->
     let s' := run [Message k (fragment data1) env1;
                    Message k (fragment data2) env2;
                    Message k (fragment data3) env3] s in
     let n := nextId (browser s) in
     exists t1 t2 t3,
       startTime s' n = Some t1 /\ startTime s' (S n) = Some t2
       /\ startTime s' (S (S n)) = Some t3
       /\ t1 == 0 /\ t2 == WebAudio.duration b1
       /\ t3 == WebAudio.duration b1 + WebAudio.duration b2)
  /\ (forall data1 data2 env1 env2 b1 b2,
     isEmpty data1 = false ->
     isEmpty data2 = false ->
     decoded env1 = Some b1 -> decoded env2 = Some b2 ->
     nextStartTimeRef s == 0 ->
     currentTime env1 == 0 ->
     currentTime env2 == WebAudio.duration b1 + 5 ->
     let s' := run [Message k (fragment data1) env1;
                    Message k (fragment data2) env2] s in
     let n := nextId (browser s) in
     exists t1 t2,
       startTime s' n = Some t1 /\ startTime s' (S n) = Some t2
       /\ t1 == 0 /\ t2 == WebAudio.duration b1 + 5
       /\ ~ t2 == WebAudio.duration b1).
Proof.
  split; [|split].
  - intros data env buffer Hd Hb. cbv zeta.
    rewrite (step_fragment _ _ _ _ _ _ _ session Hd context Hb).
    split; [apply startTime_scheduled | reflexivity].
  - intros data1 data2 data3 env1 env2 env3 b1 b2 b3 Hd1 Hd2 Hd3 Hb1 Hb2 Hb3
      H0 Ht1 Ht2 Ht3. cbv zeta. cbn [run fold_left].
    rewrite (step_fragment _ _ _ _ _ _ _ session Hd1 context Hb1).
    set (s1 := scheduled (output c) b1 (currentTime env1) s).
    rewrite (step_fragment k cl data2 env2 c b2 s1 session Hd2 context Hb2).
    set (s2 := scheduled (output c) b2 (currentTime env2) s1).
    rewrite (step_fragment k cl data3 env3 c b3 s2 session Hd3 context Hb3).
    set (s3 := scheduled (output c) b3 (currentTime env3) s2).
    set (n := nextId (browser s)).
    assert (E1 : startTime s1 n = Some (Qmax (nextStartTimeRef s) (currentTime env1)))
      by apply startTime_scheduled.
    assert (E2 : startTime s2 (S n) = Some (Qmax (nextStartTimeRef s1) (currentTime env2)))
      by apply (startTime_scheduled (output c) b2 (currentTime env2) s1).
    assert (E3 : startTime s3 (S (S n)) = Some (Qmax (nextStartTimeRef s2) (currentTime env3)))
      by apply (startTime_scheduled (output c) b3 (currentTime env3) s2).
    exists (Qmax (nextStartTimeRef s) (currentTime env1)),
           (Qmax (nextStartTimeRef s1) (currentTime env2)),
           (Qmax (nextStartTimeRef s2) (currentTime env3)).
    assert (W1 : Qmax (nextStartTimeRef s) (currentTime env1) == 0).
    { rewrite H0. apply Q.max_l. exact Ht1. }
    assert (W2 : Qmax (nextStartTimeRef s1) (currentTime env2) == WebAudio.duration b1).
    { change (nextStartTimeRef s1)
        with (Qmax (nextStartTimeRef s) (currentTime env1) + WebAudio.duration b1).
      rewrite W1, Qplus_0_l. apply Q.max_l.
      pose proof (duration_nonneg b1). lra. }
    assert (W3 : Qmax (nextStartTimeRef s2) (currentTime env3)
                 == WebAudio.duration b1 + WebAudio.duration b2).
    { change (nextStartTimeRef s2)
        with (Qmax (nextStartTimeRef s1) (currentTime env2) + WebAudio.duration b2).
      rewrite W2. apply Q.max_l.
      pose proof (duration_nonneg b1). pose proof (duration_nonneg b2). lra. }
    repeat split; try assumption.
    + unfold s3, s2. rewrite !startTime_scheduled_other; [exact E1 | |]; cbn; lia.
    + unfold s3. rewrite startTime_scheduled_other; [exact E2 |]. cbn; lia.
  - intros data1 data2 env1 env2 b1 b2 Hd1 Hd2 Hb1 Hb2 H0 Ht1 Ht2.
    cbv zeta. cbn [run fold_left].
    rewrite (step_fragment _ _ _ _ _ _ _ session Hd1 context Hb1).
    set (s1 := scheduled (output c) b1 (currentTime env1) s).
    rewrite (step_fragment k cl data2 env2 c b2 s1 session Hd2 context Hb2).
    set (s2 := scheduled (output c) b2 (currentTime env2) s1).
    set (n := nextId (browser s)).
    exists (Qmax (nextStartTimeRef s) (currentTime env1)),
           (Qmax (nextStartTimeRef s1) (currentTime env2)).
    assert (W1 : Qmax (nextStartTimeRef s) (currentTime env1) == 0).
    { rewrite H0, Ht1. apply Q.max_l. lra. }
    assert (W2 : Qmax (nextStartTimeRef s1) (currentTime env2)
                 == WebAudio.duration b1 + 5).
    { change (nextStartTimeRef s1)
        with (Qmax (nextStartTimeRef s) (currentTime env1) + WebAudio.duration b1).
      rewrite W1, Qplus_0_l, Ht2. apply Q.max_r. lra. }
    repeat split; try assumption.
    + unfold s2. rewrite startTime_scheduled_other; [apply startTime_scheduled |].
      cbn; lia.
    + apply (startTime_scheduled (output c) b2 (currentTime env2) s1).
    + rewrite W2. lra.
Qed.

(** The same for any message whose [interrupted] flag is set, whatever
    else it carries, when its handler runs to the end: a unit scheduled by
    the message itself is stopped with the others. *)
Lemma interrupted_flag_flushes (message : Genai.LiveServerMessage) (env : Readings) :
  truthyFlag (field Genai.interrupted message) = true ->
  fst (handle (Message k message env) s) = Normal tt ->
  let s' := step s (Message k message env) in
  sourcesRef s ⊆ stoppedSources (browser s')
  /\ sourcesRef s' = ∅
  /\ nextStartTimeRef s' = 0.
Proof.
  intros Hflag. cbv zeta. unfold step.
  rewrite (handle_message _ _ _ _ _ session), onmessage_run.
  destruct (handleAudio_cases message env s) as [H|H|? ? ? ? ? ?|data c' buffer Ha Hd Hc Hb];
    cbn [fst snd]; try discriminate; intros _;
    unfold afterAudio; rewrite Hflag.
  - split; [|split; reflexivity]. cbn. apply union_subseteq_l.
  - split; [|split; reflexivity]. cbn.
    etrans; [apply union_subseteq_r | apply union_subseteq_l].
Qed.

(** C2: an interruption stops every active unit, empties the active set
    and puts [nextStartTime] back to 0, so that the next fragment, submitted
    at clock T (a clock never reads below 0), starts at T; with no active
    unit nothing is stopped and nothing fails: the only write is the reset
    of [nextStartTime], which makes no difference to a fragment submitted
    once the clock has reached the old [nextStartTime] (as it has when every
    unit has ended), and on a timeline already at 0 the state is
    unchanged. *)
Theorem interruption_flushes_playback (env : Readings) :
  let s' := step s (Message k interruption env) in
  fst (handle (Message k interruption env) s) = Normal tt
  /\ stoppedSources (browser s')
     = sourcesRef s ∪ stoppedSources (browser s)
  /\ sourcesRef s' = ∅
  /\ nextStartTimeRef s' = 0
  /\ (forall data env' buffer,
        isEmpty data = false ->
        decoded env' = Some buffer ->
        0 <= currentTime env' ->
        exists t,
          startTime (step s' (Message k (fragment data) env')) (nextId (browser s'))
          = Some t
          /\ t == currentTime env')
  /\ (sourcesRef s = ∅ ->
        s' = withNextStartTime 0 s
        /\ stoppedSources (browser s') = stoppedSources (browser s)
        /\ connectionStatus (render s') = connectionStatus (render s)
        /\ (forall data env' buffer,
              isEmpty data = false ->
              decoded env' = Some buffer ->
              0 <= currentTime env' ->
              nextStartTimeRef s <= currentTime env' ->
              exists t t0,
                startTime (step s' (Message k (fragment data) env'))
                          (nextId (browser s'))
                = Some t
                /\ startTime (step s (Message k (fragment data) env'))
                             (nextId (browser s))
                   = Some t0
                /\ t == t0)
        /\ (nextStartTimeRef s = 0 -> s' = s)).
Proof.
  cbv zeta. unfold step. rewrite (handle_interruption _ _ _ _ session).
  cbn [fst snd].
  split; [reflexivity|]. split; [reflexivity|]. split; [reflexivity|].
  split; [reflexivity|]. split.
  - intros data env' buffer Hd Hb Ht.
    assert (Hk : sessions (browser (flushed s)) !! k = Some cl) by exact session.
    assert (Hc : audioContextRef (flushed s) = Some c) by exact context.
    fold (step (flushed s) (Message k (fragment data) env')).
    rewrite (step_fragment _ _ _ _ _ _ _ Hk Hd Hc Hb).
    eexists. split; [apply startTime_scheduled|].
    apply Q.max_r. exact Ht.
  - intros Hempty.
    assert (E : flushed s = withNextStartTime 0 s).
    { unfold flushed. rewrite Hempty, withBrowser_stop_nothing.
      clear session context. destruct s; cbn in *. now subst. }
    rewrite E. split; [reflexivity|]. split; [reflexivity|]. split; [reflexivity|].
    split.
    + intros data env' buffer Hd Hb Ht0 Ht.
      assert (Hk : sessions (browser (withNextStartTime 0 s)) !! k = Some cl)
        by exact session.
      assert (Hc : audioContextRef (withNextStartTime 0 s) = Some c) by exact context.
      fold (step (withNextStartTime 0 s) (Message k (fragment data) env')).
      fold (step s (Message k (fragment data) env')).
      rewrite (step_fragment _ _ _ _ _ _ _ Hk Hd Hc Hb).
      rewrite (step_fragment _ _ _ _ _ _ _ session Hd context Hb).
      eexists. eexists. split; [apply startTime_scheduled|].
      split; [apply startTime_scheduled|].
      change (nextStartTimeRef (withNextStartTime 0 s)) with 0.
      now rewrite (Q.max_r _ _ Ht0), (Q.max_r _ _ Ht).
    + intros Hzero. clear session context E. destruct s; cbn in *. now subst.
Qed.

End Timeline.

Section Untimed.

Import App.
Local Open Scope Q_scope.

Lemma untimedSource_twice (m : gmap nat (nat * WebAudio.AudioBuffer * Q)) :
  untimedSource <$> (untimedSource <$> m) = untimedSource <$> m.
Proof.
  apply map_eq. intros i. rewrite !lookup_fmap.
  destruct (m !! i) as [[[x y] z]|]; reflexivity.
Qed.

Lemma untimed_twice s : untimed (untimed s) = untimed s.
Proof.
  destruct s as [r sr ar nr so st b]. destruct b.
  cbv [untimed withNextStartTime withBrowser untimedBrowser
       render sessionRef audioContextRef nextStartTimeRef sourcesRef streamRef
       browser nextId contexts closedContexts streams stoppedStreams sessions
       closedSessions processors started stoppedSources sent].
  now rewrite untimedSource_twice.
Qed.

(** States are normalised from the inside out, so that a projection meets
    the record it projects from before that record is copied. *)
Ltac unfold_state :=
  cbv [untimed flushed scheduled withRender withBrowser withSessionRef
       withAudioContextRef withNextStartTime withSources withStreamRef
       untimedBrowser allocate addContext closeContext addStream stopTracks
       addSession closeSession addProcessor startSource stopSources
       sendRealtimeInput
       render sessionRef audioContextRef nextStartTimeRef sourcesRef streamRef
       browser nextId contexts closedContexts streams stoppedStreams sessions
       closedSessions processors started stoppedSources sent fst snd].

(** *** Observations *)

Lemma view_any {A} (g : State -> A) :
  (forall s, g (untimed s) = g s) -> TimelessView g.
Proof. intros H. exact H. Qed.

Ltac view := apply view_any; intros ?; reflexivity.

(** *** Updates *)

Lemma untimedSource_insert (m : gmap nat (nat * WebAudio.AudioBuffer * Q)) n x :
  untimedSource <$> <[n := x]> m = <[n := untimedSource x]> (untimedSource <$> m).
Proof. apply fmap_insert. Qed.

Ltac update :=
  intros [? ? ? ? ? ? []]; unfold_state; rewrite ?untimedSource_twice; reflexivity.

Lemma update_render f : TimelessUpdate (withRender f).
Proof. update. Qed.
Lemma update_sessionRef v : TimelessUpdate (withSessionRef v).
Proof. update. Qed.
Lemma update_audioContextRef v : TimelessUpdate (withAudioContextRef v).
Proof. update. Qed.
Lemma update_nextStartTime v : TimelessUpdate (withNextStartTime v).
Proof. update. Qed.
Lemma update_sources v : TimelessUpdate (withSources v).
Proof. update. Qed.
Lemma update_streamRef v : TimelessUpdate (withStreamRef v).
Proof. update. Qed.
Lemma update_allocate : TimelessUpdate (withBrowser allocate).
Proof. update. Qed.
Lemma update_addContext c rate : TimelessUpdate (withBrowser (addContext c rate)).
Proof. update. Qed.
Lemma update_closeContext c : TimelessUpdate (withBrowser (closeContext c)).
Proof. update. Qed.
Lemma update_addStream m : TimelessUpdate (withBrowser (addStream m)).
Proof. update. Qed.
Lemma update_stopTracks m : TimelessUpdate (withBrowser (stopTracks m)).
Proof. update. Qed.
Lemma update_addSession k cl : TimelessUpdate (withBrowser (addSession k cl)).
Proof. update. Qed.
Lemma update_closeSession k : TimelessUpdate (withBrowser (closeSession k)).
Proof. update. Qed.
Lemma update_addProcessor k : TimelessUpdate (withBrowser (addProcessor k)).
Proof. update. Qed.
Lemma update_stopSources ns : TimelessUpdate (withBrowser (stopSources ns)).
Proof. update. Qed.
Lemma update_send k media : TimelessUpdate (withBrowser (sendRealtimeInput k media)).
Proof. update. Qed.
Lemma update_scheduled c buffer now : TimelessUpdate (scheduled c buffer now).
Proof.
  intros [? ? ? ? ? ? []]. unfold_state.
  rewrite !untimedSource_insert, untimedSource_twice. reflexivity.
Qed.

(** Writing [nextStartTime] is invisible once the timeline is forgotten. *)
Lemma untimed_withNextStartTime v s : untimed (withNextStartTime v s) = untimed s.
Proof. destruct s as [? ? ? ? ? ? []]. reflexivity. Qed.

Create HintDb timeless.
Hint Resolve update_render update_sessionRef update_audioContextRef
  update_nextStartTime update_sources update_streamRef update_allocate
  update_addContext update_closeContext update_addStream update_stopTracks
  update_addSession update_closeSession update_addProcessor update_stopSources
  update_send update_scheduled : timeless.

(** *** Computations *)

Lemma timeless_ret {A} (a : A) : Timeless (ret a).
Proof. intros s. split; [reflexivity | symmetry; apply untimed_twice]. Qed.

Lemma timeless_throw {A} : Timeless (@throw A).
Proof. intros s. split; [reflexivity | symmetry; apply untimed_twice]. Qed.

Lemma timeless_complete {A} (c : Completion A) : Timeless (complete c).
Proof. intros s. split; [reflexivity | symmetry; apply untimed_twice]. Qed.

Lemma timeless_modify f : TimelessUpdate f -> Timeless (modify f).
Proof. intros H s. split; [reflexivity | apply H]. Qed.

Lemma timeless_gets {A} (g : State -> A) : TimelessView g -> Timeless (gets g).
Proof.
  intros H s. unfold gets. cbn [fst snd]. rewrite (H s).
  split; [reflexivity | symmetry; apply untimed_twice].
Qed.

Lemma timeless_bind {A B} (c : Js A) (k : A -> Js B) :
  Timeless c -> (forall a, Timeless (k a)) -> Timeless (bind c k).
Proof.
  intros Hc Hk s. unfold bind. destruct (Hc s) as [H1 H2].
  destruct (c s) as [[a|] s1], (c (untimed s)) as [[a'|] s2];
    cbn [fst snd] in *; try discriminate.
  - injection H1 as <-.
    destruct (Hk a s1) as [K1 K2], (Hk a s2) as [L1 L2].
    rewrite K1, K2, L1, L2, H2. now split.
  - now split.
Qed.

Lemma timeless_tryCatch (body handler : Js unit) :
  Timeless body -> Timeless handler -> Timeless (tryCatch body handler).
Proof.
  intros Hb Hh s. unfold tryCatch. destruct (Hb s) as [H1 H2].
  destruct (body s) as [[a|] s1], (body (untimed s)) as [[a'|] s2];
    cbn [fst snd] in *; try discriminate.
  - injection H1 as <-. now split.
  - destruct (Hh s1) as [K1 K2], (Hh s2) as [L1 L2].
    rewrite K1, K2, L1, L2, H2. now split.
Qed.

Lemma timeless_when (b : bool) (c : Js unit) : Timeless c -> Timeless (when b c).
Proof. intros H. destruct b; [exact H | apply timeless_ret]. Qed.

Lemma timeless_scheduleAudio c env : Timeless (scheduleAudio c env).
Proof.
  intros s. destruct (decoded env) as [buffer|] eqn:E.
  - rewrite !(scheduleAudio_decoded _ _ _ _ E). split; [reflexivity|].
    apply update_scheduled.
  - rewrite !(scheduleAudio_undecoded _ _ _ E). split; [reflexivity|].
    cbn [snd]. now rewrite !untimed_withNextStartTime, untimed_twice.
Qed.

Hint Resolve timeless_ret timeless_throw timeless_complete timeless_modify
  timeless_scheduleAudio timeless_when timeless_tryCatch : timeless.

(** One step of a proof that a handler is timeless. *)
Ltac timeless_step :=
  first
    [ match goal with H : Timeless ?c |- Timeless ?c => exact H end
    | match goal with H : forall x, Timeless (?c x) |- Timeless (?c _) => apply H end
    | match goal with
      | H : forall x y z, Timeless (?c x y z) |- Timeless (?c _ _ _) => apply H
      end
    | apply timeless_scheduleAudio
    | apply timeless_bind; [|intros ?]
    | apply timeless_tryCatch
    | apply timeless_when
    | apply timeless_gets; view
    | match goal with
      | |- Timeless (match ?x with _ => _ end) => destruct x
      | |- Timeless (if ?x then _ else _) => destruct x
      | |- Timeless (let '(_, _) := ?x in _) => destruct x
      end
    | solve [auto 6 with timeless] ].

Ltac timeless := repeat timeless_step.

Lemma timeless_flushPlayback : Timeless flushPlayback.
Proof. unfold flushPlayback. timeless. Qed.

Lemma timeless_stopAudio : Timeless stopAudio.
Proof. unfold stopAudio. timeless; apply timeless_flushPlayback. Qed.

Lemma timeless_freshId : Timeless freshId.
Proof. unfold freshId. timeless. Qed.

Lemma timeless_setupAudio env : Timeless (setupAudio env).
Proof.
  pose proof timeless_freshId.
  unfold setupAudio, newAudioContext, getUserMedia. timeless.
Qed.

Lemma timeless_handleStartSession env : Timeless (handleStartSession env).
Proof.
  pose proof timeless_freshId. pose proof timeless_stopAudio.
  pose proof (timeless_setupAudio env).
  unfold handleStartSession, connect, setIsActive, setConnectionStatus.
  timeless.
Qed.

Lemma timeless_onmessage cl message env : Timeless (onmessage cl message env).
Proof.
  pose proof timeless_flushPlayback.
  unfold onmessage, handleAudio, handleTranscriptions, handleTurnComplete,
    handleInterrupted, setHistory, setCurrentInput, setCurrentOutput.
  timeless.
Qed.

(** No handler reads the timeline except to write the timeline. *)
Lemma timeless_handle e : Timeless (handle e).
Proof.
  pose proof timeless_handleStartSession. pose proof timeless_onmessage.
  destruct e;
    unfold handle, callback, awaitSession, onopen, onerror, onclose, onended,
      onaudioprocess, setIsActive, setConnectionStatus, setIsMuted,
      setSelectedVoice;
    timeless.
Qed.

Lemma step_untimed e s1 s2 :
  untimed s1 = untimed s2 -> untimed (step s1 e) = untimed (step s2 e).
Proof.
  intros H. unfold step.
  destruct (timeless_handle e s1) as [_ H1], (timeless_handle e s2) as [_ H2].
  now rewrite H1, H2, H.
Qed.

Lemma run_untimed events : forall s1 s2,
  untimed s1 = untimed s2 -> untimed (run events s1) = untimed (run events s2).
Proof.
  induction events as [|e events IH]; intros s1 s2 H; [exact H|].
  cbn [run fold_left]. apply IH. now apply step_untimed.
Qed.

(** C6: a fragment that fails to decode does not end the session and
    does not put it in the error state.  The message that carries it is
    skipped: no unit is scheduled, nothing is stopped, the render is the
    same; only [nextStartTime] was already raised to the clock by line 98.
    Whatever events follow are handled as if the fragment had never
    arrived, up to times on the timeline; and a fragment that arrives next,
    at a clock that did not go back, starts when it would have started. *)
Theorem undecodable_fragment_is_skipped
    (s : State) (k : nat) (cl : Closure) (c : AudioContexts)
    (message : Genai.LiveServerMessage) (env : Readings) (data : string) :
  sessions (browser s) !! k = Some cl ->
  audioContextRef s = Some c ->
  audioData message = Normal (Some data) ->
  isEmpty data = false ->
  decoded env = None ->
  let s' := step s (Message k message env) in
  s' = withNextStartTime (Qmax (nextStartTimeRef s) (currentTime env)) s
  /\ render s' = render s
  /\ browser s' = browser s
  /\ sourcesRef s' = sourcesRef s
  /\ (forall events, untimed (run events s') = untimed (run events s))
  /\ (forall data' env' buffer,
        isEmpty data' = false ->
        decoded env' = Some buffer ->
        currentTime env <= currentTime env' ->
        exists t t0,
          startTime (step s' (Message k (fragment data') env')) (nextId (browser s'))
          = Some t
          /\ startTime (step s (Message k (fragment data') env')) (nextId (browser s))
             = Some t0
          /\ t == t0).
Proof.
  intros Hk Hc Ha Hd Hb. cbv zeta.
  assert (E : step s (Message k message env)
              = withNextStartTime (Qmax (nextStartTimeRef s) (currentTime env)) s).
  { unfold step. rewrite (handle_message _ _ _ _ _ Hk), onmessage_run.
    unfold handleAudio, bind, complete, when, gets. rewrite Ha.
    cbn [truthyString]. rewrite Hd. cbn [negb]. rewrite Hc.
    now rewrite (scheduleAudio_undecoded _ _ _ Hb). }
  rewrite E. split; [reflexivity|]. split; [reflexivity|]. split; [reflexivity|].
  split; [reflexivity|]. split.
  - intros events. apply run_untimed, untimed_withNextStartTime.
  - intros data' env' buffer Hd' Hb' Ht.
    set (s1 := withNextStartTime (Qmax (nextStartTimeRef s) (currentTime env)) s).
    assert (Hk1 : sessions (browser s1) !! k = Some cl) by exact Hk.
    assert (Hc1 : audioContextRef s1 = Some c) by exact Hc.
    rewrite (step_fragment _ _ _ _ _ _ _ Hk1 Hd' Hc1 Hb').
    rewrite (step_fragment _ _ _ _ _ _ _ Hk Hd' Hc Hb').
    eexists. eexists. split; [apply startTime_scheduled|].
    split; [apply startTime_scheduled|].
    change (nextStartTimeRef s1) with (Qmax (nextStartTimeRef s) (currentTime env)).
    rewrite <- Q.max_assoc. rewrite (Q.max_r (currentTime env) (currentTime env') Ht).
    reflexivity.
Qed.

End Untimed.

Section Session.

Import App.
Local Open Scope Q_scope.

(** Handlers are evaluated on a state whose fields are named. *)
Ltac evaluate :=
  cbv [step handle callback handleStartSession awaitSession onopen
       onaudioprocess onerror onclose onended stopAudio flushPlayback
       setupAudio newAudioContext getUserMedia connect freshId tryCatch
       setIsActive setConnectionStatus setIsMuted setSelectedVoice
       when bind gets modify ret throw
       withRender withBrowser withSessionRef withAudioContextRef
       withNextStartTime withSources withStreamRef
       renderIsActive renderConnectionStatus renderIsMuted renderSelectedVoice
       allocate addContext closeContext addStream stopTracks addSession
       closeSession addProcessor stopSources sendRealtimeInput
       render sessionRef audioContextRef nextStartTimeRef sourcesRef streamRef
       browser nextId contexts closedContexts streams stoppedStreams sessions
       closedSessions processors started stoppedSources sent
       isActive selectedVoice history currentInput currentOutput isMuted
       connectionStatus inputContext outputContext microphone input output
       fst snd negb andb deviceFails].

(** ** Turn completion *)

Lemma history_transcribed message r : history (transcribed message r) = history r.
Proof.
  unfold transcribed.
  destruct (field Genai.inputTranscription message),
           (field Genai.outputTranscription message); reflexivity.
Qed.

Lemma render_flushed s : render (flushed s) = render s.
Proof. reflexivity. Qed.

Lemma render_afterAudio cl message env s :
  render (afterAudio cl message env s)
  = turned cl message env (transcribed message (render s)).
Proof.
  unfold afterAudio. destruct (truthyFlag (field Genai.interrupted message));
    reflexivity.
Qed.

(** C10: every turn-complete that is processed appends exactly two
    entries to the history, the user's and then the model's, stamped with
    the two readings of [Date.now()] taken while it is processed; nothing
    is tested before appending, so empty texts are appended as well.  The
    texts are the handler's [currentInput] and [currentOutput]. *)
Theorem turnComplete_appends_two_entries
    (s : State) (k : nat) (cl : Closure)
    (message : Genai.LiveServerMessage) (env : Readings) :
  sessions (browser s) !! k = Some cl ->
  truthyFlag (field Genai.turnComplete message) = true ->
  fst (handle (Message k message env) s) = Normal tt ->
  history (render (step s (Message k message env)))
  = history (render s)
    ++ [ {| Types.id := random1 env; Types.type := Types.user;
            Types.text := currentInput (scope cl);
            Types.timestamp := now1 env |};
         {| Types.id := random2 env; Types.type := Types.model;
            Types.text := currentOutput (scope cl);
            Types.timestamp := now2 env |} ].
Proof.
  intros Hk Hflag. unfold step.
  rewrite (handle_message _ _ _ _ _ Hk), onmessage_run.
  destruct (handleAudio_cases message env s) as [H|H|? ? ? ? ? ?|data c buffer Ha Hd Hc Hb];
    cbn [fst snd]; try discriminate; intros _.
  - rewrite render_afterAudio. unfold turned. rewrite Hflag.
    cbn [history renderCurrentOutput renderCurrentInput renderHistory].
    now rewrite history_transcribed.
  - rewrite render_afterAudio. unfold turned. rewrite Hflag.
    cbn [history renderCurrentOutput renderCurrentInput renderHistory].
    now rewrite history_transcribed.
Qed.

(** After a turn-complete both accumulators are empty, whatever they
    held. *)
Lemma turnComplete_resets_accumulators
    (s : State) (k : nat) (cl : Closure)
    (message : Genai.LiveServerMessage) (env : Readings) :
  sessions (browser s) !! k = Some cl ->
  truthyFlag (field Genai.turnComplete message) = true ->
  fst (handle (Message k message env) s) = Normal tt ->
  currentInput (render (step s (Message k message env))) = ""%string
  /\ currentOutput (render (step s (Message k message env))) = ""%string.
Proof.
  intros Hk Hflag. unfold step.
  rewrite (handle_message _ _ _ _ _ Hk), onmessage_run.
  destruct (handleAudio message env s) as [[[]|] s1]; cbn [fst snd];
    try discriminate; intros _.
  rewrite render_afterAudio. unfold turned. rewrite Hflag. split; reflexivity.
Qed.

(** C7, at a failing input: on a fresh page with an established session
    the user's partial transcript "hello" and the model's "hi there"
    arrive, then the turn completes.  The accumulators held both texts,
    yet the two entries appended have empty text: the handler reads the
    [currentInput] and [currentOutput] of the render in which the session
    was started.  The accumulators are reset. *)
Theorem turnComplete_finalizes_stale_text :
  let env := readings 0 None in
  let before := run [Message 3 (partialInput "hello") env;
                     Message 3 (partialOutput "hi there") env] established in
  let after := step before (Message 3 turnCompleted env) in
  currentInput (render before) = "hello"%string
  /\ currentOutput (render before) = "hi there"%string
  /\ history (render after)
     = [ {| Types.id := "0.1"; Types.type := Types.user;
            Types.text := ""; Types.timestamp := 1000 |};
         {| Types.id := "0.2"; Types.type := Types.model;
            Types.text := ""; Types.timestamp := 1000 |} ]
  /\ currentInput (render after) = ""%string
  /\ currentOutput (render after) = ""%string.
Proof. cbv zeta. repeat split; vm_compute; reflexivity. Qed.

(** ** Mute *)

(** The mute button changes [isMuted] and nothing else: no device, no
    stream, no context is touched. *)
Lemma mute_toggles_the_flag_only s :
  step s ClickMute = withRender (renderIsMuted (negb (isMuted (render s)))) s.
Proof. reflexivity. Qed.

(** What the capture callback of a session does is fixed when the session
    is started. *)
Lemma capture_follows_captured_flag s k cl inputData :
  sessions (browser s) !! k = Some cl ->
  delivers k cl s = true ->
  sent (browser (step s (AudioProcess k inputData)))
  = if isMuted (scope cl) then sent (browser s)
    else sent (browser s) ++ [(k, SampleCodec.createPcmBlob inputData)].
Proof.
  intros Hk Hd. unfold step, handle, callback, bind, gets. rewrite Hk, Hd.
  unfold when, onaudioprocess. destruct (isMuted (scope cl)); reflexivity.
Qed.

(** C4, at a failing input: a session is established on a fresh page
    (not muted), then mute is turned on; the next capture frame is
    forwarded all the same.  And the other way round: a session started
    while muted forwards nothing after mute is turned off.  In both runs the
    stream and the contexts are those acquired at the start, untouched. *)
Theorem mute_toggle_does_not_reach_capture :
  let frame := [(1 # 2); - (1 # 2)] in
  let muted := step established ClickMute in
  let unmuted := run [ClickMute; ClickStart granted; Open 3; ClickMute] initial in
  (isMuted (render muted) = true
   /\ sent (browser muted) = []
   /\ sent (browser (step muted (AudioProcess 3 frame)))
      = [(3%nat, SampleCodec.createPcmBlob frame)])
  /\ (isMuted (render unmuted) = false
      /\ sent (browser (step unmuted (AudioProcess 3 frame))) = [])
  /\ (streams (browser muted) = {[2%nat]}
      /\ stoppedStreams (browser muted) = ∅
      /\ closedContexts (browser muted) = ∅).
Proof. cbv zeta. repeat split; vm_compute; reflexivity. Qed.

(** ** Error and close *)

(** [onerror] and [onclose] set the two state cells and nothing else. *)
Lemma error_sets_state_only s k cl :
  sessions (browser s) !! k = Some cl ->
  step s (Error k)
  = withRender (renderIsActive false)
      (withRender (renderConnectionStatus error) s).
Proof.
  intros Hk. unfold step, handle, callback, bind, gets. now rewrite Hk.
Qed.

Lemma close_sets_state_only s k cl :
  sessions (browser s) !! k = Some cl ->
  step s (Close k)
  = withRender (renderIsActive false)
      (withRender (renderConnectionStatus idle) s).
Proof.
  intros Hk. unfold step, handle, callback, bind, gets. now rewrite Hk.
Qed.

(** C5, at a failing input: an established session with one unit
    scheduled receives an error event, and likewise a close event.  The
    state becomes [error], respectively [idle], but the stream is not
    stopped, no context is closed, the unit stays in the active set
    unstopped, and the next capture frame is still forwarded. *)
Theorem error_and_close_keep_resources :
  let frame := [(1 # 2); - (1 # 2)] in
  let playing :=
    step established (Message 3 (fragment "AAAA") (readings 0 (Some (silence 24)))) in
  let held (s : State) :=
    stoppedStreams (browser s) = ∅
    /\ closedContexts (browser s) = ∅
    /\ sourcesRef s = {[4%nat]}
    /\ stoppedSources (browser s) = ∅
    /\ sent (browser (step s (AudioProcess 3 frame)))
       = [(3%nat, SampleCodec.createPcmBlob frame)] in
  (connectionStatus (render (step playing (Error 3))) = error
   /\ isActive (render (step playing (Error 3))) = false
   /\ held (step playing (Error 3)))
  /\ (connectionStatus (render (step playing (Close 3))) = idle
      /\ isActive (render (step playing (Close 3))) = false
      /\ held (step playing (Close 3))).
Proof. cbv zeta. repeat split; vm_compute; reflexivity. Qed.

(** ** Start and stop *)

(** C8, as stated, fails: on an established (connected) session a second
    call of the start handler is accepted (it completes normally) and is
    not idempotent: it leaves the session idle and inactive. *)
Lemma second_start_stops_the_session :
  connectionStatus (render established) = connected
  /\ isActive (render established) = true
  /\ fst (handle (ClickStart granted) established) = Normal tt
  /\ step established (ClickStart granted) <> established
  /\ connectionStatus (render (step established (ClickStart granted))) = idle
  /\ isActive (render (step established (ClickStart granted))) = false.
Proof.
  repeat split; try (vm_compute; reflexivity).
  intros H. apply (f_equal (fun s => isActive (render s))) in H.
  vm_compute in H. discriminate.
Qed.

(** C8 (amended): while the session is active, calling the start handler
    again starts nothing: it is the stop.  It completes normally, sets the
    state to idle and inactive, closes the session held in [sessionRef],
    stops the tracks of the stream in [streamRef], closes both contexts in
    [audioContextRef], stops every active unit, empties the active set and
    resets [nextStartTime]; no context, stream or session is created. *)
Theorem start_while_active_is_stop (s : State) (env : Devices) :
  isActive (render s) = true ->
  let s' := step s (ClickStart env) in
  fst (handle (ClickStart env) s) = Normal tt
  /\ connectionStatus (render s') = idle
  /\ isActive (render s') = false
  /\ (forall k, sessionRef s = Some k -> k ∈ closedSessions (browser s'))
  /\ (forall m, streamRef s = Some m -> m ∈ stoppedStreams (browser s'))
  /\ (forall c, audioContextRef s = Some c ->
        input c ∈ closedContexts (browser s')
        /\ output c ∈ closedContexts (browser s'))
  /\ sourcesRef s ⊆ stoppedSources (browser s')
  /\ sourcesRef s' = ∅
  /\ nextStartTimeRef s' = 0
  /\ contexts (browser s') = contexts (browser s)
  /\ streams (browser s') = streams (browser s)
  /\ sessions (browser s') = sessions (browser s)
  /\ nextId (browser s') = nextId (browser s).
Proof.
  destruct s as [[act v h ci co mu cs] sr ar nr so st b]. destruct b.
  cbn [render isActive]. intros ->. cbv zeta.
  destruct sr as [k0|], st as [m0|], ar as [[i0 o0]|]; evaluate;
    repeat split; try reflexivity; intros; simplify_eq; evaluate; set_solver.
Qed.

(** What C8 leaves open: while the first session is still connecting,
    [isActive] is false and a second call starts a second session; both
    streams, all four contexts and both sessions stay live, and the refs
    hold the second set only. *)
Lemma second_start_while_connecting :
  let once := step initial (ClickStart granted) in
  let twice := step once (ClickStart granted) in
  connectionStatus (render once) = connecting
  /\ streams (browser twice) = {[2%nat; 6%nat]}
  /\ stoppedStreams (browser twice) = ∅
  /\ dom (contexts (browser twice)) = {[0%nat; 1%nat; 4%nat; 5%nat]}
  /\ closedContexts (browser twice) = ∅
  /\ dom (sessions (browser twice)) = {[3%nat; 7%nat]}
  /\ closedSessions (browser twice) = ∅
  /\ streamRef twice = Some 6%nat
  /\ audioContextRef twice = Some {| input := 4; output := 5 |}.
Proof. cbv zeta. repeat split; vm_compute; reflexivity. Qed.

(** C9, as stated, fails: on a fresh page the microphone is denied.  The
    start handler completes, the state is [error], not [idle], and the two
    audio contexts made before the request are still referenced and
    open. *)
Lemma denied_microphone_ends_in_error :
  let s' := step initial (ClickStart micDenied) in
  deviceFails micDenied = true
  /\ connectionStatus (render initial) = idle
  /\ connectionStatus (render s') = error
  /\ audioContextRef s' = Some firstContexts
  /\ contexts (browser s') = <[1%nat := 24000%positive]> (<[0%nat := 16000%positive]> ∅)
  /\ closedContexts (browser s') = ∅.
Proof. cbv zeta. repeat split; vm_compute; reflexivity. Qed.

(** C9 (amended): when a device is unavailable or denied, the start
    handler catches the failure (it completes normally, nothing is thrown
    to the caller) and reports it through the state, which becomes [error];
    the session is not active, no media stream was acquired and [streamRef]
    is as before, no session was opened and no capture callback attached. *)
Theorem failed_start_is_reported_as_error (s : State) (env : Devices) :
  isActive (render s) = false ->
  deviceFails env = true ->
  let s' := step s (ClickStart env) in
  fst (handle (ClickStart env) s) = Normal tt
  /\ connectionStatus (render s') = error
  /\ isActive (render s') = false
  /\ streamRef s' = streamRef s
  /\ streams (browser s') = streams (browser s)
  /\ sessionRef s' = sessionRef s
  /\ sessions (browser s') = sessions (browser s)
  /\ processors (browser s') = processors (browser s)
  /\ sent (browser s') = sent (browser s).
Proof.
  destruct s as [[act v h ci co mu cs] sr ar nr so st b]. destruct b.
  cbn [render isActive]. intros -> Hfail. cbv zeta.
  destruct env as [[] [] []]; try discriminate Hfail; evaluate;
    repeat split; reflexivity.
Qed.

End Session.

(* ================================================================== *)
(** * The theorems at concrete inputs *)

Section Witnesses.

Import App.
Local Open Scope Q_scope.

(** Three fragments of 2, 3 and 4 frames submitted at clock 0 start at 0,
    2/24000 and 5/24000; a fragment submitted 5 s after the end of a first
    one of 2 frames starts at 5 + 2/24000. *)
Lemma playback_chains_buffers_witness :
  sessions (browser established) !! 3%nat = Some firstClosure
  /\ audioContextRef established = Some firstContexts
  /\ (exists t1 t2 t3,
        let s' := run [Message 3 (fragment "AAAA") (readings 0 (Some (silence 2)));
                       Message 3 (fragment "BBBB") (readings 0 (Some (silence 3)));
                       Message 3 (fragment "CCCC") (readings 0 (Some (silence 4)))]
                      established in
        startTime s' 4 = Some t1 /\ startTime s' 5 = Some t2
        /\ startTime s' 6 = Some t3
        /\ t1 == 0 /\ t2 == 2 # 24000 /\ t3 == 5 # 24000)
  /\ (exists t1 t2,
        let s' := run [Message 3 (fragment "AAAA") (readings 0 (Some (silence 2)));
                       Message 3 (fragment "BBBB")
                         (readings ((2 # 24000) + 5) (Some (silence 3)))]
                      established in
        startTime s' 4 = Some t1 /\ startTime s' 5 = Some t2
        /\ t1 == 0 /\ t2 == (2 # 24000) + 5 /\ ~ t2 == 2 # 24000).
Proof.
  assert (sessionThere : sessions (browser established) !! 3%nat = Some firstClosure)
    by (vm_compute; reflexivity).
  assert (contextThere : audioContextRef established = Some firstContexts)
    by (vm_compute; reflexivity).
  destruct (playback_chains_buffers established 3%nat firstClosure firstContexts
              sessionThere contextThere) as (_ & Hchain & Hlate).
  split; [exact sessionThere|]. split; [exact contextThere|]. split.
  - destruct (Hchain "AAAA"%string "BBBB"%string "CCCC"%string
                (readings 0 (Some (silence 2))) (readings 0 (Some (silence 3)))
                (readings 0 (Some (silence 4)))
                (silence 2) (silence 3) (silence 4))
      as (t1 & t2 & t3 & H1 & H2 & H3 & E1 & E2 & E3);
      try reflexivity; try (vm_compute; discriminate).
    exists t1, t2, t3. cbv zeta.
    split; [exact H1|]. split; [exact H2|]. split; [exact H3|].
    split; [exact E1|]. split; [exact E2|]. rewrite E3. vm_compute. reflexivity.
  - destruct (Hlate "AAAA"%string "BBBB"%string
                (readings 0 (Some (silence 2)))
                (readings ((2 # 24000) + 5) (Some (silence 3)))
                (silence 2) (silence 3))
      as (t1 & t2 & H1 & H2 & E1 & E2 & E3); try reflexivity.
    exists t1, t2. cbv zeta.
    split; [exact H1|]. split; [exact H2|]. split; [exact E1|].
    split; [exact E2|exact E3].
Defined.

(** An interruption while one unit is scheduled stops it and clears the
    timeline, and a fragment submitted afterwards at clock 7 starts at 7;
    an interruption on the established session, where nothing plays and
    the timeline is at 0, changes nothing. *)
Lemma interruption_flushes_playback_witness :
  sessions (browser playing) !! 3%nat = Some firstClosure
  /\ audioContextRef playing = Some firstContexts
  /\ sourcesRef playing = {[4%nat]}
  /\ (let s' := step playing (Message 3 interruption (readings 1 None)) in
      stoppedSources (browser s') = sourcesRef playing ∪ stoppedSources (browser playing)
      /\ sourcesRef s' = ∅
      /\ nextStartTimeRef s' = 0
      /\ exists t,
           startTime (step s' (Message 3 (fragment "BBBB") (readings 7 (Some (silence 3)))))
                     (nextId (browser s'))
           = Some t
           /\ t == 7)
  /\ sourcesRef established = ∅
  /\ step established (Message 3 interruption (readings 1 None)) = established.
Proof.
  assert (Hk : sessions (browser playing) !! 3%nat = Some firstClosure)
    by (vm_compute; reflexivity).
  assert (Hc : audioContextRef playing = Some firstContexts)
    by (vm_compute; reflexivity).
  assert (Hk0 : sessions (browser established) !! 3%nat = Some firstClosure)
    by (vm_compute; reflexivity).
  assert (Hc0 : audioContextRef established = Some firstContexts)
    by (vm_compute; reflexivity).
  assert (He : sourcesRef established = ∅) by (vm_compute; reflexivity).
  destruct (interruption_flushes_playback playing 3%nat firstClosure firstContexts
              Hk Hc (readings 1 None)) as (_ & H1 & H2 & H3 & H4 & _).
  destruct (interruption_flushes_playback established 3%nat firstClosure
              firstContexts Hk0 Hc0 (readings 1 None)) as (_ & _ & _ & _ & _ & H5).
  split; [exact Hk|]. split; [exact Hc|].
  split; [vm_compute; reflexivity|]. split.
  - cbv zeta. split; [exact H1|]. split; [exact H2|]. split; [exact H3|].
    apply (H4 "BBBB"%string (readings 7 (Some (silence 3))) (silence 3));
      [reflexivity | reflexivity | vm_compute; discriminate].
  - split; [exact He|].
    destruct (H5 He) as (_ & _ & _ & H6). apply H6. vm_compute. reflexivity.
Defined.

(** A fragment that fails to decode at clock 1/2 on the established
    session: the state differs in [nextStartTime] only, and the events that
    follow leave the same state up to the timeline. *)
Lemma undecodable_fragment_is_skipped_witness :
  sessions (browser established) !! 3%nat = Some firstClosure
  /\ audioContextRef established = Some firstContexts
  /\ audioData (fragment "!!!!") = Normal (Some "!!!!"%string)
  /\ (let s' := step established (Message 3 (fragment "!!!!") (readings (1 # 2) None)) in
      s' = withNextStartTime (Qmax (nextStartTimeRef established) (1 # 2)) established
      /\ connectionStatus (render s') = connected
      /\ untimed (run [Message 3 (partialInput "hello") (readings 1 None);
                       Message 3 turnCompleted (readings 2 None)] s')
         = untimed (run [Message 3 (partialInput "hello") (readings 1 None);
                         Message 3 turnCompleted (readings 2 None)] established)).
Proof.
  assert (Hk : sessions (browser established) !! 3%nat = Some firstClosure)
    by (vm_compute; reflexivity).
  assert (Hc : audioContextRef established = Some firstContexts)
    by (vm_compute; reflexivity).
  assert (Ha : audioData (fragment "!!!!") = Normal (Some "!!!!"%string))
    by reflexivity.
  destruct (undecodable_fragment_is_skipped established 3%nat firstClosure
              firstContexts (fragment "!!!!") (readings (1 # 2) None) "!!!!"%string
              Hk Hc Ha eq_refl eq_refl) as (H1 & H2 & _ & _ & H5 & _).
  split; [exact Hk|]. split; [exact Hc|]. split; [exact Ha|].
  cbv zeta. split; [exact H1|]. split.
  - rewrite H2. vm_compute. reflexivity.
  - apply H5.
Defined.

(** A turn-complete on the established session appends two entries. *)
Lemma turnComplete_appends_two_entries_witness :
  sessions (browser established) !! 3%nat = Some firstClosure
  /\ history (render (step established (Message 3 turnCompleted (readings 0 None))))
     = history (render established)
       ++ [ {| Types.id := "0.1"; Types.type := Types.user;
               Types.text := ""; Types.timestamp := 1000 |};
            {| Types.id := "0.2"; Types.type := Types.model;
               Types.text := ""; Types.timestamp := 1000 |} ].
Proof.
  assert (Hk : sessions (browser established) !! 3%nat = Some firstClosure)
    by (vm_compute; reflexivity).
  split; [exact Hk|].
  apply (turnComplete_appends_two_entries established 3%nat firstClosure
           turnCompleted (readings 0 None) Hk); vm_compute; reflexivity.
Defined.

(** The second click on the established session, with one unit playing. *)
Lemma start_while_active_is_stop_witness :
  isActive (render playing) = true
  /\ (let s' := step playing (ClickStart granted) in
      connectionStatus (render s') = idle
      /\ isActive (render s') = false
      /\ 3%nat ∈ closedSessions (browser s')
      /\ 2%nat ∈ stoppedStreams (browser s')
      /\ 0%nat ∈ closedContexts (browser s')
      /\ 1%nat ∈ closedContexts (browser s')
      /\ sourcesRef playing ⊆ stoppedSources (browser s')
      /\ sourcesRef s' = ∅
      /\ sessions (browser s') = sessions (browser playing)).
Proof.
  assert (Ha : isActive (render playing) = true) by (vm_compute; reflexivity).
  destruct (start_while_active_is_stop playing granted Ha)
    as (_ & H1 & H2 & H3 & H4 & H5 & H6 & H7 & _ & _ & _ & H8 & _).
  split; [exact Ha|]. cbv zeta.
  split; [exact H1|]. split; [exact H2|].
  split; [apply H3; vm_compute; reflexivity|].
  split; [apply H4; vm_compute; reflexivity|].
  destruct (H5 firstContexts) as [Hi Ho]; [vm_compute; reflexivity|].
  split; [exact Hi|]. split; [exact Ho|].
  split; [exact H6|]. split; [exact H7|exact H8].
Defined.

(** The microphone is denied on a fresh page. *)
Lemma failed_start_is_reported_as_error_witness :
  isActive (render initial) = false
  /\ deviceFails micDenied = true
  /\ (let s' := step initial (ClickStart micDenied) in
      fst (handle (ClickStart micDenied) initial) = Normal tt
      /\ connectionStatus (render s') = error
      /\ isActive (render s') = false
      /\ streamRef s' = None
      /\ streams (browser s') = ∅
      /\ sessions (browser s') = ∅).
Proof.
  destruct (failed_start_is_reported_as_error initial micDenied eq_refl eq_refl)
    as (H0 & H1 & H2 & H3 & H4 & _ & H6 & _).
  split; [reflexivity|]. split; [reflexivity|]. cbv zeta.
  split; [exact H0|]. split; [exact H1|]. split; [exact H2|].
  split; [exact H3|]. split; [exact H4|exact H6].
Defined.

End Witnesses.

(* ================================================================== *)
(** * What every run keeps *)

Section EffectsOfSteps.

Import App Effects.
Local Open Scope Q_scope.

(** ** Rules *)

Lemma traces_weaken {A} (P : State -> Prop) (c : Js A) : Traces c -> TracesFrom P c.
Proof. intros H s _. now apply H. Qed.

Lemma traces_ret {A} P (a : A) : TracesFrom P (ret a).
Proof. intros s _. apply rtc_refl. Qed.

Lemma traces_throw {A} P : TracesFrom P (@throw A).
Proof. intros s _. apply rtc_refl. Qed.

Lemma traces_complete {A} P (c : Completion A) : TracesFrom P (complete c).
Proof. intros s _. apply rtc_refl. Qed.

Lemma traces_gets {A} P (g : State -> A) : TracesFrom P (gets g).
Proof. intros s _. apply rtc_refl. Qed.

Lemma traces_modify P f : (forall s, P s -> Effect s (f s)) -> TracesFrom P (modify f).
Proof. intros H s HP. apply rtc_once, H, HP. Qed.

Lemma traces_bind {A B} P (c : Js A) (k : A -> Js B) :
  TracesFrom P c -> (forall a, Traces (k a)) -> TracesFrom P (bind c k).
Proof.
  intros Hc Hk s HP. unfold bind. specialize (Hc s HP).
  destruct (c s) as [[a|] s1]; cbn [snd] in *; [|exact Hc].
  etrans; [exact Hc|]. now apply Hk.
Qed.

Lemma traces_gets_bind {A B} P (g : State -> A) (k : A -> Js B) :
  (forall a, TracesFrom (fun s => P s /\ g s = a) (k a)) ->
  TracesFrom P (bind (gets g) k).
Proof. intros H s HP. unfold bind, gets. now apply (H (g s)). Qed.

Lemma traces_tryCatch P (body handler : Js unit) :
  TracesFrom P body -> Traces handler -> TracesFrom P (tryCatch body handler).
Proof.
  intros Hb Hh s HP. unfold tryCatch. specialize (Hb s HP).
  destruct (body s) as [[a|] s1]; cbn [snd] in *; [exact Hb|].
  etrans; [exact Hb|]. now apply Hh.
Qed.

Lemma traces_when P (b : bool) (c : Js unit) : TracesFrom P c -> TracesFrom P (when b c).
Proof. intros H. destruct b; [exact H | apply traces_ret]. Qed.

Lemma traces_render P f : TracesFrom P (modify (withRender f)).
Proof. apply traces_modify. intros s _. apply EffRender. Qed.

(** One step of the proof that a handler is a sequence of effects. *)
Ltac traces_step :=
  unfold Traces;
  lazymatch goal with
  | |- TracesFrom _ (scheduleAudio _ _) => fail
  | _ => idtac
  end;
  first
    [ match goal with H : TracesFrom ?P ?c |- TracesFrom ?P ?c => exact H end
    | match goal with H : Traces ?c |- TracesFrom _ ?c => apply traces_weaken, H end
    | match goal with
      | H : forall x, Traces (?c x) |- TracesFrom _ (?c _) => apply traces_weaken, H
      end
    | apply traces_ret
    | apply traces_throw
    | apply traces_complete
    | apply traces_render
    | apply traces_gets_bind; intros ?
    | apply traces_bind; [|intros ?]
    | apply traces_when
    | match goal with
      | |- TracesFrom _ (match ?x with _ => _ end) => destruct x
      | |- TracesFrom _ (if ?x then _ else _) => destruct x
      end ].

Ltac traces := unfold Traces; repeat traces_step.

Ltac side :=
  solve [ cbn; eauto
        | cbn; apply lookup_insert_eq
        | cbn; rewrite lookup_insert_ne by lia; apply lookup_insert_eq ].

(** A sequence of effects is found from its last state backwards: the
    last update of a state names the effect that made it. *)
Ltac back c := eapply rtc_r; [ | solve [eapply c; side] ].

Ltac chain :=
  repeat first
    [ apply rtc_refl
    | back EffRender | back EffSession | back EffStream | back EffContexts
    | back EffContext | back EffCloseContexts | back EffCloseSession
    | back EffStopTracks | back EffSessionRef | back EffProcessor
    | back EffSend | back EffEnded | back EffSchedule | back EffFlush
    | back EffClock ].

(** ** Handlers *)

Lemma traces_flushPlayback : Traces flushPlayback.
Proof. intros s _. rewrite flushPlayback_flushed. apply rtc_once, EffFlush. Qed.

Lemma traces_stopAudio : Traces stopAudio.
Proof.
  unfold stopAudio, Traces.
  apply traces_gets_bind; intros held. apply traces_bind.
  { destruct held as [m|]; [|apply traces_ret].
    apply traces_modify. intros s [_ H]. now apply EffStopTracks. }
  intros _. apply traces_gets_bind; intros ctxs. apply traces_bind.
  { destruct ctxs as [c|]; [|apply traces_ret].
    intros s [_ Hc]. unfold bind, modify. cbn [snd]. chain. }
  intros _. apply traces_flushPlayback.
Qed.

Lemma traces_scheduleAudio c env :
  TracesFrom (fun s => audioContextRef s = Some c) (scheduleAudio (output c) env).
Proof.
  intros s Hc. destruct (decoded env) as [buffer|] eqn:E.
  - rewrite (scheduleAudio_decoded _ _ _ _ E). apply rtc_once. now apply EffSchedule.
  - rewrite (scheduleAudio_undecoded _ _ _ E). apply rtc_once, EffClock.
Qed.

Lemma traces_onmessage cl message env : Traces (onmessage cl message env).
Proof.
  pose proof traces_flushPlayback.
  unfold onmessage, handleAudio, handleTranscriptions, handleTurnComplete,
    handleInterrupted, setHistory, setCurrentInput, setCurrentOutput.
  traces.
  intros s [_ Hc]. now apply traces_scheduleAudio.
Qed.

(** The start path, for every answer of the platform. *)
Lemma traces_start r env :
  Traces
    (tryCatch
       (bind (setConnectionStatus connecting) (fun _ =>
        bind (setupAudio env) (fun acquired =>
        let '(inputCtx, outputCtx, stream) := acquired in
        bind (connect {| scope := r; inputCtx := inputCtx; outputCtx := outputCtx;
                         stream := stream |}) (fun _ =>
        ret tt))))
       (setConnectionStatus error)).
Proof.
  intros s _.
  destruct env as [[] [] []];
    cbv [tryCatch bind setConnectionStatus setupAudio newAudioContext getUserMedia
         connect freshId gets modify ret throw inputContext outputContext
         microphone snd].
  all: chain.
Qed.

Lemma traces_handleStartSession env : Traces (handleStartSession env).
Proof.
  unfold handleStartSession, Traces.
  apply traces_gets_bind; intros r. destruct (isActive r).
  - unfold setIsActive, setConnectionStatus.
    apply traces_bind; [apply traces_render|]. intros _.
    apply traces_bind; [apply traces_render|]. intros _.
    apply traces_gets_bind; intros held. apply traces_bind.
    + destruct held as [k|]; [|apply traces_ret].
      apply traces_modify. intros s [_ H]. now apply EffCloseSession.
    + intros _. apply traces_stopAudio.
  - apply traces_weaken, traces_start.
Qed.

(** Every handler acts on the state as a sequence of effects. *)
Lemma traces_handle e : Traces (handle e).
Proof.
  destruct e; unfold handle, callback, Traces.
  - apply traces_handleStartSession.
  - apply traces_gets_bind; intros [cl|]; [|apply traces_ret].
    unfold awaitSession, setConnectionStatus. destruct resolved; [|apply traces_render].
    apply traces_modify. intros s [_ H]. now apply (EffSessionRef s k cl).
  - apply traces_gets_bind; intros [cl|]; [|apply traces_ret].
    intros s [_ H]. unfold onopen, setConnectionStatus, setIsActive, bind, modify.
    cbn [snd]. chain.
  - apply traces_gets_bind; intros [cl|]; [|apply traces_ret].
    apply traces_weaken, traces_onmessage.
  - apply traces_gets_bind; intros [cl|]; [|apply traces_ret].
    unfold onerror, setConnectionStatus, setIsActive. traces.
  - apply traces_gets_bind; intros [cl|]; [|apply traces_ret].
    unfold onclose, setConnectionStatus, setIsActive. traces.
  - apply traces_gets_bind; intros [cl|]; [|apply traces_ret].
    intros s [_ H]. unfold bind, gets, when, onaudioprocess.
    destruct (delivers k cl s); [|apply rtc_refl].
    destruct (isMuted (scope cl)) eqn:Hm; [apply rtc_refl|].
    unfold modify. cbn [snd]. apply rtc_once. now apply (EffSend s k cl).
  - intros s _. unfold onended, bind, gets, modify. cbn [snd].
    apply rtc_once, EffEnded.
  - unfold setIsMuted. traces.
  - unfold setSelectedVoice. traces.
Qed.

Lemma step_effects e s : rtc Effect s (step s e).
Proof. now apply traces_handle. Qed.

(** What every effect keeps, every run keeps. *)
Lemma effects_keep (Inv : State -> Prop) :
  (forall s s', Effect s s' -> Inv s -> Inv s') ->
  forall events s, Inv s -> Inv (run events s).
Proof.
  intros Hkeep.
  assert (Hrtc : forall s s', rtc Effect s s' -> Inv s -> Inv s').
  { induction 1; eauto. }
  induction events as [|e events IH]; intros s Hs; [exact Hs|].
  cbn [run fold_left]. apply IH. exact (Hrtc _ _ (step_effects e s) Hs).
Qed.

End EffectsOfSteps.

Section Invariants.

Import App Effects.
Local Open Scope Q_scope.

Lemma fresh_initial : Fresh initial.
Proof.
  repeat split; intros n H; cbn in H.
  - rewrite lookup_empty in H. now destruct H.
  - set_solver.
  - rewrite lookup_empty in H. now destruct H.
  - rewrite lookup_empty in H. now destruct H.
Qed.

Lemma fresh_effect s s' : Effect s s' -> Fresh s -> Fresh s'.
Proof.
  intros E (F1 & F2 & F3 & F4).
  destruct E; unfold Fresh, scheduled, flushed; cbn;
    repeat split; intros n Hn;
    repeat match goal with
    | H : is_Some (<[_ := _]> _ !! _) |- _ =>
        apply lookup_insert_is_Some in H; destruct H as [<-|[_ H]]
    | H : _ ∈ {[_]} ∪ _ |- _ =>
        apply elem_of_union in H; destruct H as [H%elem_of_singleton|H]; subst
    end;
    try lia;
    try (apply F1 in Hn; lia); try (apply F2 in Hn; lia);
    try (apply F3 in Hn; lia); try (apply F4 in Hn; lia).
Qed.

Lemma fresh_run events s : Fresh s -> Fresh (run events s).
Proof. apply effects_keep, fresh_effect. Qed.

(** A lookup that succeeds is at an id in use, so an insertion at the
    next free id leaves it as it is. *)
Lemma lookup_insert_fresh {V} (m : gmap nat V) (bound i : nat) (v x : V) :
  (forall n, is_Some (m !! n) -> (n < bound)%nat) ->
  m !! i = Some x -> <[bound := v]> m !! i = Some x.
Proof.
  intros Hb Hi. rewrite lookup_insert_ne; [exact Hi|].
  intros ->. specialize (Hb i (ex_intro _ x Hi)). lia.
Qed.

Lemma held_initial : Held initial.
Proof.
  repeat split; cbn; try discriminate; intros k cl H;
    rewrite lookup_empty in H; discriminate.
Qed.

Lemma held_effect s s' : Effect s s' -> Fresh s -> Held s -> Held s'.
Proof.
  intros E (F1 & F2 & F3 & F4) (H1 & H2 & H3 & H4).
  destruct E; unfold Held, scheduled, flushed; cbn.
  all: try (split; [exact H1|split; [exact H2|split; [exact H3|exact H4]]]).
  - (* a lone context *)
    split; [|split; [exact H2|split; [exact H3|]]].
    + intros c Hc. destruct (H1 c Hc) as [Hi Ho].
      split; eapply lookup_insert_fresh; eauto.
    + intros k cl Hk. destruct (H4 k cl Hk) as (A & B & C & D & E).
      repeat split; eauto using lookup_insert_fresh.
  - (* two contexts, held *)
    split; [|split; [exact H2|split; [exact H3|]]].
    + intros c [= <-]. cbn. split.
      * rewrite lookup_insert_ne by lia. apply lookup_insert_eq.
      * apply lookup_insert_eq.
    + intros k cl Hk. destruct (H4 k cl Hk) as (A & B & C & D & E).
      repeat split; eauto.
      * eapply lookup_insert_fresh; eauto using lookup_insert_fresh.
        intros n Hn. apply lookup_insert_is_Some in Hn.
        destruct Hn as [<-|[_ Hn]]; [lia|]. apply F1 in Hn. lia.
      * eapply lookup_insert_fresh; eauto using lookup_insert_fresh.
        intros n Hn. apply lookup_insert_is_Some in Hn.
        destruct Hn as [<-|[_ Hn]]; [lia|]. apply F1 in Hn. lia.
  - (* a stream, held *)
    split; [exact H1|]. split; [|split; [exact H3|]].
    + intros m [= <-]. apply elem_of_union_l, elem_of_singleton. reflexivity.
    + intros k cl Hk. destruct (H4 k cl Hk) as (A & B & C & D & E).
      repeat split; eauto. now apply elem_of_union_r.
  - (* a session *)
    split; [exact H1|]. split; [exact H2|]. split.
    + intros k Hk. apply lookup_insert_is_Some'. right. now apply H3.
    + intros k cl' Hk. apply lookup_insert_Some in Hk.
      destruct Hk as [[<- <-]|[_ Hk]]; [|exact (H4 _ _ Hk)].
      destruct (H1 _ H) as [Hi Ho]. cbn in Hi, Ho.
      repeat split; eauto.
  - (* the session ref *)
    split; [exact H1|]. split; [exact H2|]. split; [|exact H4].
    intros k' [= <-]. eauto.
Qed.

Lemma orderly_initial : Orderly initial.
Proof.
  unfold Orderly. cbn. repeat split; try set_solver; try (intros; lra).
  intros n [x Hx]. rewrite lookup_empty in Hx. discriminate.
Qed.

Lemma orderly_bound s bound :
  (nextId (browser s) <= bound)%nat ->
  (forall n, is_Some (started (browser s) !! n) -> (n < nextId (browser s))%nat) ->
  forall n, is_Some (started (browser s) !! n) -> (n < bound)%nat.
Proof. intros Hb H n Hn. specialize (H n Hn). lia. Qed.

Lemma orderly_effect s s' : Effect s s' -> Orderly s -> Orderly s'.
Proof.
  intros E (O1 & O2 & O3 & O4 & O5 & O6 & O7).
  destruct E; unfold Orderly, scheduled, flushed; cbn.
  all: try (split; [exact O1|split; [exact O2|split; [exact O3|split;
              [exact O4|split; [exact O5|split; [exact O6|exact O7]]]]]]).
  all: try (split; [exact O1|split; [exact O2|split;
              [apply (orderly_bound s); [cbn; lia|exact O3]|split;
              [exact O4|split; [exact O5|split; [exact O6|exact O7]]]]]]).
  - (* flush *)
    split; [intros n Hn; now apply not_elem_of_empty in Hn|].
    split; [intros n [Hn|Hn]%elem_of_union; auto|].
    split; [exact O3|].
    split; [intros n Hn; now apply not_elem_of_empty in Hn|].
    split; [apply Qle_refl|].
    split; [intros n x Hn; now apply not_elem_of_empty in Hn|].
    intros n m x y Hn; now apply not_elem_of_empty in Hn.
  - (* the clock raises nextStartTime *)
    split; [exact O1|]. split; [exact O2|]. split; [exact O3|].
    split; [exact O4|].
    pose proof (Q.le_max_l (nextStartTimeRef s) t) as Hmax.
    split; [exact (Qle_trans _ _ _ O5 Hmax)|].
    split; [|exact O7].
    intros n x Hn Hx. destruct (O6 n x Hn Hx) as [A B].
    split; [exact A | exact (Qle_trans _ _ _ B Hmax)].
  - (* a unit is scheduled *)
    set (N := nextId (browser s)) in *.
    set (start := Qmax (nextStartTimeRef s) t) in *.
    pose proof (Q.le_max_l (nextStartTimeRef s) t) as Hmax. fold start in Hmax.
    pose proof (duration_nonneg buffer) as Hd.
    assert (Hold : forall n, n ∈ sourcesRef s -> n <> N).
    { intros n Hn ->. specialize (O3 N (O1 N Hn)). unfold N in O3. lia. }
    split.
    { intros n [Hn%elem_of_singleton|Hn]%elem_of_union.
      - subst n. rewrite lookup_insert_eq. eauto.
      - rewrite lookup_insert_ne by (intros Heq; apply (Hold n Hn); auto). auto. }
    split.
    { intros n Hn. apply lookup_insert_is_Some'. right. auto. }
    split.
    { intros n Hn. apply lookup_insert_is_Some in Hn.
      destruct Hn as [<-|[_ Hn]]; [lia|]. specialize (O3 n Hn). fold N in O3. lia. }
    split.
    { intros n [Hn%elem_of_singleton|Hn]%elem_of_union; [|auto].
      subst n. intros Hs. specialize (O3 N (O2 N Hs)). unfold N in O3. lia. }
    split; [lra|].
    split.
    { intros n x [Hn%elem_of_singleton|Hn]%elem_of_union Hx.
      - subst n. rewrite lookup_insert_eq in Hx. injection Hx as <-.
        cbn. split; lra.
      - rewrite lookup_insert_ne in Hx by (intros Heq; apply (Hold n Hn); auto).
        destruct (O6 n x Hn Hx). split; [auto | lra]. }
    intros n m x y [Hn%elem_of_singleton|Hn]%elem_of_union
                   [Hm%elem_of_singleton|Hm]%elem_of_union Hlt Hx Hy.
    + subst. lia.
    + subst n. specialize (O3 m (O1 m Hm)). fold N in O3. lia.
    + subst m. rewrite lookup_insert_eq in Hy. injection Hy as <-.
      rewrite lookup_insert_ne in Hx by (intros Heq; apply (Hold n Hn); auto).
      destruct (O6 n x Hn Hx). cbn. lra.
    + rewrite lookup_insert_ne in Hx by (intros Heq; apply (Hold n Hn); auto).
      rewrite lookup_insert_ne in Hy by (intros Heq; apply (Hold m Hm); auto).
      eauto.
  - (* a unit ends *)
    split; [intros n [Hn _]%elem_of_difference; auto|].
    split; [exact O2|]. split; [exact O3|].
    split; [intros n [Hn _]%elem_of_difference; auto|].
    split; [exact O5|].
    split; [intros n x [Hn _]%elem_of_difference; eauto|].
    intros n m x y [Hn _]%elem_of_difference [Hm _]%elem_of_difference; eauto.
Qed.

Lemma run_app events1 events2 s :
  run (events1 ++ events2) s = run events2 (run events1 s).
Proof. apply fold_left_app. Qed.

Lemma orderly_run events : Orderly (run events initial).
Proof. apply (effects_keep Orderly orderly_effect), orderly_initial. Qed.

(** X3: of two units in the active set, the one scheduled later starts no
    earlier than the other ends, in every state a run from the fresh page
    can reach. *)
Theorem active_units_never_overlap (events : list Event) (n m : nat)
    (cn cm : nat) (bn bm : WebAudio.AudioBuffer) (tn tm : Q) :
  let s := run events initial in
  n ∈ sourcesRef s -> m ∈ sourcesRef s -> (n < m)%nat ->
  started (browser s) !! n = Some (cn, bn, tn) ->
  started (browser s) !! m = Some (cm, bm, tm) ->
  tn + WebAudio.duration bn <= tm.
Proof.
  cbv zeta. intros Hn Hm Hlt Hx Hy.
  destruct (orderly_run events) as (_ & _ & _ & _ & _ & _ & O7).
  exact (O7 n m _ _ Hn Hm Hlt Hx Hy).
Qed.

(** X4: every unit in the active set was started and not stopped, starts at a
    time that is not negative and ends by [nextStartTime]. *)
Theorem active_units_are_scheduled (events : list Event) (n : nat) :
  let s := run events initial in
  n ∈ sourcesRef s ->
  (n ∉ stoppedSources (browser s))
  /\ (exists c buffer t,
        started (browser s) !! n = Some (c, buffer, t)
        /\ 0 <= t
        /\ t + WebAudio.duration buffer <= nextStartTimeRef s).
Proof.
  cbv zeta. intros Hn.
  destruct (orderly_run events) as (O1 & _ & _ & O4 & _ & O6 & _).
  split; [now apply O4|].
  destruct (O1 n Hn) as [[[c buffer] t] Hx].
  exists c, buffer, t. split; [exact Hx|]. exact (O6 n _ Hn Hx).
Qed.

(** ** Sessions and what they captured *)

Lemma sessions_effect s s' k cl :
  Effect s s' -> Fresh s ->
  sessions (browser s) !! k = Some cl -> sessions (browser s') !! k = Some cl.
Proof.
  intros E (_ & _ & F3 & _) Hk.
  destruct E; unfold scheduled, flushed; cbn; try exact Hk.
  eapply lookup_insert_fresh; eauto.
Qed.

Lemma sessions_run events : forall s k cl,
  Fresh s -> sessions (browser s) !! k = Some cl ->
  sessions (browser (run events s)) !! k = Some cl.
Proof.
  intros s k cl HF Hk.
  apply (effects_keep (fun s => Fresh s /\ sessions (browser s) !! k = Some cl));
    [|now split].
  intros s1 s2 E [HF1 Hk1]. split; [eapply fresh_effect | eapply sessions_effect]; eauto.
Qed.

(** X6: what a session closed over when it was started stays what it is:
    no later event changes the closure of a session. *)
Theorem session_closure_is_fixed (before after : list Event) (k : nat) (cl : Closure) :
  sessions (browser (run before initial)) !! k = Some cl ->
  sessions (browser (run (before ++ after) initial)) !! k = Some cl.
Proof.
  intros Hk. rewrite run_app. apply sessions_run; [|exact Hk].
  apply fresh_run, fresh_initial.
Qed.

Lemma sent_effect s s' :
  Effect s s' -> Fresh s -> SentByUnmuted s -> SentByUnmuted s'.
Proof.
  intros E HF HS.
  assert (Hkeep : forall k cl, sessions (browser s) !! k = Some cl ->
                    sessions (browser s') !! k = Some cl)
    by (intros; eapply sessions_effect; eauto).
  intros k media Hin.
  assert (Hold : (k, media) ∈ sent (browser s) ->
                 exists cl, sessions (browser s') !! k = Some cl
                            /\ isMuted (scope cl) = false).
  { intros H. destruct (HS k media H) as (cl & Hk & Hm). eauto. }
  destruct E; unfold scheduled, flushed in *; cbn in *; try (now apply Hold).
  apply elem_of_app in Hin. destruct Hin as [Hin|Hin]; [now apply Hold|].
  apply list_elem_of_singleton in Hin. injection Hin as -> ->. eauto.
Qed.

(** X8: a session that was started while muted never hands a frame over,
    whatever is clicked afterwards. *)
Theorem muted_session_never_sends (events : list Event) (k : nat) (cl : Closure)
    (media : string) :
  let s := run events initial in
  sessions (browser s) !! k = Some cl ->
  isMuted (scope cl) = true ->
  (k, media) ∉ sent (browser s).
Proof.
  cbv zeta. intros Hk Hm Hin.
  assert (H : Fresh (run events initial) /\ SentByUnmuted (run events initial)).
  { apply (effects_keep (fun s => Fresh s /\ SentByUnmuted s)).
    - intros s1 s2 E [HF HS]. split; [eapply fresh_effect | eapply sent_effect]; eauto.
    - split; [apply fresh_initial|]. intros k' m' H. cbn in H.
      now apply not_elem_of_nil in H. }
  destruct H as [_ HS]. destruct (HS k media Hin) as (cl' & Hk' & Hm').
  rewrite Hk in Hk'. injection Hk' as <-. congruence.
Qed.

(** ** What is no longer referenced *)

Lemma orphanStream_effect m s s' : Effect s s' -> OrphanStream m s -> OrphanStream m s'.
Proof.
  intros E (Hlt & Href & Hst).
  destruct E; unfold OrphanStream, scheduled, flushed; cbn;
    try (split; [lia|split; [exact Href|exact Hst]]).
  - split; [lia|]. split; [|exact Hst]. intros [= Heq]. lia.
  - split; [exact Hlt|]. split; [exact Href|].
    intros [Hin%elem_of_singleton|Hin]%elem_of_union; [|contradiction].
    subst m0. contradiction.
Qed.

(** A stream that was granted and is no longer the one [streamRef] holds
    is never stopped: no later event releases it. *)
Lemma orphanStream_run (s : State) (m : nat) (events : list Event) :
  (m < nextId (browser s))%nat ->
  streamRef s <> Some m ->
  m ∉ stoppedStreams (browser s) ->
  m ∉ stoppedStreams (browser (run events s)).
Proof.
  intros Hlt Href Hst.
  apply (effects_keep (OrphanStream m) (orphanStream_effect m) events s).
  split; [exact Hlt|split; [exact Href|exact Hst]].
Qed.

Lemma orphanContext_effect c s s' :
  Effect s s' -> OrphanContext c s -> OrphanContext c s'.
Proof.
  intros E (Hlt & Href & Hcl).
  destruct E; unfold OrphanContext, scheduled, flushed; cbn;
    try (split; [lia|split; [exact Href|exact Hcl]]).
  - split; [lia|]. split; [|exact Hcl]. intros held [= <-]. cbn. lia.
  - split; [exact Hlt|]. split; [exact Href|].
    destruct (Href _ H) as [Hi Ho].
    intros [Hin%elem_of_singleton|[Hin%elem_of_singleton|Hin]%elem_of_union]%elem_of_union;
      congruence.
Qed.

(** An audio context that was made and is not one of the two
    [audioContextRef] holds is never closed. *)
Lemma orphanContext_run (s : State) (c : nat) (events : list Event) :
  (c < nextId (browser s))%nat ->
  (forall held, audioContextRef s = Some held -> input held <> c /\ output held <> c) ->
  c ∉ closedContexts (browser s) ->
  c ∉ closedContexts (browser (run events s)).
Proof.
  intros Hlt Href Hcl.
  apply (effects_keep (OrphanContext c) (orphanContext_effect c) events s).
  split; [exact Hlt|split; [exact Href|exact Hcl]].
Qed.

Lemma held_run events : Fresh (run events initial) /\ Held (run events initial).
Proof.
  apply (effects_keep (fun s => Fresh s /\ Held s)).
  - intros s s' He [Hf Hh]. split; [eapply fresh_effect|eapply held_effect]; eauto.
  - split; [apply fresh_initial|apply held_initial].
Qed.

(** X1: whatever happened, the refs hold objects that were made: the
    contexts of [audioContextRef] are a 16 kHz and a 24 kHz context, the
    stream of [streamRef] and the session of [sessionRef] exist, and every
    session captured a 16 kHz context, a 24 kHz context and a stream that
    exist. *)
Theorem refs_hold_what_was_made (events : list Event) :
  let s := run events initial in
  (forall c, audioContextRef s = Some c ->
     contexts (browser s) !! input c = Some 16000%positive
     /\ contexts (browser s) !! output c = Some 24000%positive)
  /\ (forall m, streamRef s = Some m -> m ∈ streams (browser s))
  /\ (forall k, sessionRef s = Some k -> is_Some (sessions (browser s) !! k))
  /\ (forall k cl, sessions (browser s) !! k = Some cl ->
        contexts (browser s) !! inputCtx cl = Some 16000%positive
        /\ contexts (browser s) !! outputCtx cl = Some 24000%positive
        /\ stream cl ∈ streams (browser s)).
Proof.
  cbv zeta. destruct (held_run events) as [_ (H1 & H2 & H3 & H4)].
  split; [exact H1|]. split; [exact H2|]. split; [exact H3|].
  intros k cl Hk. destruct (H4 k cl Hk) as (_ & _ & Hi & Ho & Hs). auto.
Qed.

(** X2: once a session exists, [audioContextRef] is set, so the guard
    [if (outCtx)] never skips: a fragment that decodes is scheduled, on a
    24 kHz context. *)
Theorem fragment_is_always_scheduled (events : list Event) (k : nat) (cl : Closure)
    (data : string) (env : Readings) (buffer : WebAudio.AudioBuffer) :
  let s := run events initial in
  sessions (browser s) !! k = Some cl ->
  isEmpty data = false ->
  decoded env = Some buffer ->
  exists c,
    audioContextRef s = Some c
    /\ contexts (browser s) !! output c = Some 24000%positive
    /\ step s (Message k (fragment data) env)
       = scheduled (output c) buffer (currentTime env) s.
Proof.
  cbv zeta. intros Hk Hd Hb.
  destruct (held_run events) as [_ (H1 & _ & _ & H4)].
  destruct (H4 k cl Hk) as ([c Hc] & _).
  exists c. split; [exact Hc|]. split; [apply (H1 c Hc)|].
  now apply (step_fragment k cl).
Qed.

End Invariants.

Section Renders.

Import App Effects.

Ltac monad :=
  cbv [step handle callback handleStartSession awaitSession onopen
       onaudioprocess onerror onclose onended stopAudio flushPlayback
       setupAudio newAudioContext getUserMedia connect freshId tryCatch
       setIsActive setConnectionStatus setIsMuted setSelectedVoice
       when bind gets modify ret throw delivers
       inputContext outputContext microphone
       withRender withBrowser withSessionRef withAudioContextRef
       withNextStartTime withSources withStreamRef
       render sessionRef audioContextRef nextStartTimeRef sourcesRef streamRef
       browser fst snd].

(** The render after any event is the render before, changed in one of
    eleven ways. *)
Lemma render_step e s : RenderStep (render s) (render (step s e)).
Proof.
  destruct e.
  - destruct s as [r sr ac ns so st b]. monad.
    destruct (isActive r) eqn:Ha.
    + destruct sr, st, ac; now apply RenderStop.
    + destruct env as [[] [] []];
        first [now apply RenderStart | now apply RenderStartFailed].
  - destruct s as [r sr ac ns so st b]. monad.
    destruct (sessions b !! k); [destruct resolved|];
      first [apply RenderSame | apply RenderRejected].
  - destruct s as [r sr ac ns so st b]. monad.
    destruct (sessions b !! k);
      first [apply RenderSame | apply RenderOpen].
  - unfold step, handle, callback, bind, gets.
    destruct (sessions (browser s) !! k) as [cl|]; [|apply RenderSame].
    rewrite onmessage_run.
    destruct (handleAudio_cases message env s); cbn [snd];
      rewrite ?render_afterAudio; first [apply RenderSame | apply RenderMessage].
  - destruct s as [r sr ac ns so st b]. monad.
    destruct (sessions b !! k);
      first [apply RenderSame | apply RenderError].
  - destruct s as [r sr ac ns so st b]. monad.
    destruct (sessions b !! k);
      first [apply RenderSame | apply RenderClose].
  - destruct s as [r sr ac ns so st b]. monad.
    destruct (sessions b !! k) as [cl|]; [|apply RenderSame].
    destruct (_ && _), (isMuted (scope cl)); apply RenderSame.
  - destruct s as [r sr ac ns so st b]. monad. apply RenderSame.
  - destruct s as [r sr ac ns so st b]. monad. apply RenderMute.
  - destruct s as [r sr ac ns so st b]. monad.
    destruct (isActive r) eqn:Ha;
      first [apply RenderSame | now apply RenderPersona].
Qed.

Lemma transcribed_flags message r :
  isActive (transcribed message r) = isActive r
  /\ connectionStatus (transcribed message r) = connectionStatus r
  /\ history (transcribed message r) = history r.
Proof.
  unfold transcribed.
  destruct (field Genai.inputTranscription message),
           (field Genai.outputTranscription message); auto.
Qed.

Lemma turned_flags cl message env r :
  isActive (turned cl message env r) = isActive r
  /\ connectionStatus (turned cl message env r) = connectionStatus r.
Proof.
  unfold turned. destruct (truthyFlag (field Genai.turnComplete message)); auto.
Qed.

Lemma turned_history cl message env r :
  history (turned cl message env r)
  = history r ++ (if truthyFlag (field Genai.turnComplete message)
                  then turnEntries cl env else []).
Proof.
  unfold turned. destruct (truthyFlag (field Genai.turnComplete message)).
  - reflexivity.
  - now rewrite app_nil_r.
Qed.

Lemma render_keep (Inv : Render -> Prop) :
  (forall r r', RenderStep r r' -> Inv r -> Inv r') ->
  forall events s, Inv (render s) -> Inv (render (run events s)).
Proof.
  intros Hstep events. induction events as [|e events IH]; intros s Hs.
  - exact Hs.
  - apply IH. exact (Hstep _ _ (render_step e s) Hs).
Qed.

Lemma coherent_step r r' : RenderStep r r' -> Coherent r -> Coherent r'.
Proof.
  intros Hr [H1 H2].
  destruct Hr as [ |Ha|Ha|Ha| | |cl message env| | | |v Ha]; unfold Coherent.
  7: { destruct (transcribed_flags message r) as (Ea & Es & _).
       destruct (turned_flags cl message env (transcribed message r)) as (Ea' & Es').
       rewrite Ea', Es', Ea, Es. split; [exact H1|exact H2]. }
  all: cbn; split; intros;
    first [discriminate | congruence | reflexivity | now apply H1
          | now left | now right | now apply H2].
Qed.

(** X9: in every render the status and the activity flag agree: a
    connected session is active, and an active one is connected or in
    error; idle and connecting renders are never active. *)
Theorem status_and_activity_agree (events : list Event) :
  let r := render (run events initial) in
  (connectionStatus r = connected -> isActive r = true)
  /\ (isActive r = true ->
      connectionStatus r = connected \/ connectionStatus r = error).
Proof.
  cbv zeta. apply (render_keep Coherent coherent_step).
  split; cbn; [discriminate|discriminate].
Qed.

Lemma turns_app l1 l2 : Turns l1 -> Turns l2 -> Turns (l1 ++ l2).
Proof.
  induction 1 as [|u m rest Hu Hm Hrest IH]; intros H2.
  - exact H2.
  - cbn. apply TurnsCons; auto.
Qed.

Lemma history_step r r' :
  RenderStep r r' -> exists added, history r' = history r ++ added /\ Turns added.
Proof.
  intros Hr.
  destruct Hr as [ |Ha|Ha|Ha| | |cl message env| | | |v Ha];
    try (exists []; split; [cbn; now rewrite app_nil_r|apply TurnsNil]).
  rewrite turned_history.
  destruct (transcribed_flags message r) as (_ & _ & ->).
  eexists. split; [reflexivity|].
  destruct (truthyFlag _); [|apply TurnsNil].
  apply TurnsCons; [reflexivity|reflexivity|apply TurnsNil].
Qed.

Lemma history_run (events : list Event) (s : State) :
  exists added,
    history (render (run events s)) = history (render s) ++ added
    /\ Turns added.
Proof.
  revert s. induction events as [|e events IH]; intros s.
  - exists []. split; [cbn; now rewrite app_nil_r|apply TurnsNil].
  - destruct (history_step _ _ (render_step e s)) as (a1 & E1 & T1).
    destruct (IH (step s e)) as (a2 & E2 & T2).
    exists (a1 ++ a2). split; [|now apply turns_app].
    cbn [run fold_left] in *. unfold run in E2. rewrite E2, E1.
    now rewrite app_assoc.
Qed.

(** X10: the history only grows, and by whole turns: whatever happens, the
    entries already there stay in place, and what is added after them is a
    sequence of pairs, a user entry followed by a model entry. *)
Theorem history_grows_by_turns (events : list Event) (s : State) :
  exists added,
    history (render (run events s)) = history (render s) ++ added
    /\ Turns added.
Proof. apply history_run. Qed.

(** X11: the placeholder of the transcript pane is gone for good once the
    history has an entry. *)
Theorem placeholder_never_returns (events : list Event) (s : State) :
  history (render s) <> [] ->
  View.showsPlaceholder (render (run events s)) = false.
Proof.
  intros Hne. destruct (history_run events s) as (added & E & _).
  unfold View.showsPlaceholder. rewrite E.
  destruct (history (render s)) as [|x rest]; [contradiction|reflexivity].
Qed.

End Renders.

Section Messages.

Import App Effects.

Lemma append_empty (a : string) : (a ++ "")%string = a.
Proof.
  induction a as [|x a IH]; [reflexivity|].
  change (String x (a ++ "")%string = String x a). now rewrite IH.
Qed.

Lemma append_assoc (a b c : string) : ((a ++ b) ++ c = a ++ (b ++ c))%string.
Proof.
  induction a as [|x a IH]; [reflexivity|].
  change (String x ((a ++ b) ++ c)%string = String x (a ++ (b ++ c))%string).
  now rewrite IH.
Qed.

Lemma step_partial k cl who t env s :
  sessions (browser s) !! k = Some cl ->
  step s (Message k (partial who t) env)
  = withRender
      (match who with
       | Types.user => renderCurrentInput (fun prev => prev ++ piece t)%string
       | Types.model => renderCurrentOutput (fun prev => prev ++ piece t)%string
       end) s.
Proof.
  intros Hk. unfold step. rewrite (handle_message _ _ _ _ _ Hk), onmessage_run.
  destruct s as [r sr ac ns so st b], t as [[txt|]], who; reflexivity.
Qed.

(** X12: partial transcripts accumulate per speaker, in the order of
    arrival: after any sequence of them, the pending input is what it was
    followed by the pieces of the user, the pending output what it was
    followed by the pieces of the model, a transcript without text counting
    as the piece "undefined"; nothing else of the state changes. *)
Theorem partial_transcripts_accumulate (k : nat) (cl : Closure)
    (parts : list (Types.Speaker * Genai.Transcription * Readings)) (s : State) :
  sessions (browser s) !! k = Some cl ->
  run (transcripts k parts) s
  = withRender
      (fun r =>
         renderCurrentOutput (fun prev => prev ++ spoken Types.model parts)%string
           (renderCurrentInput (fun prev => prev ++ spoken Types.user parts)%string r))
      s.
Proof.
  revert s. induction parts as [|[[who t] env] parts IH]; intros s Hk.
  - destruct s as [[] sr ac ns so st b]. cbn [transcripts map run fold_left spoken].
    cbv [withRender renderCurrentOutput renderCurrentInput render currentInput
         currentOutput isActive selectedVoice history isMuted connectionStatus
         sessionRef audioContextRef nextStartTimeRef sourcesRef streamRef browser].
    now rewrite !append_empty.
  - cbn [transcripts map run fold_left].
    rewrite (step_partial k cl who t env s Hk).
    change (fold_left step (map _ parts) ?x) with (run (transcripts k parts) x).
    rewrite IH by (destruct s; exact Hk).
    destruct s as [[] sr ac ns so st b], who; cbn [spoken];
      cbv [withRender renderCurrentOutput renderCurrentInput render currentInput
           currentOutput isActive selectedVoice history isMuted connectionStatus
           sessionRef audioContextRef nextStartTimeRef sourcesRef streamRef browser];
      now rewrite ?append_assoc.
Qed.

(** X13: a model turn without a [parts] array makes the handler throw at
    its first line: the whole message is dropped, with its transcripts, its
    turn-complete and its interrupt, and the state is unchanged. *)
Theorem turn_without_parts_drops_the_message (k : nat) (cl : Closure)
    (message : Genai.LiveServerMessage) (sc : Genai.LiveServerContent)
    (turn : Genai.Content) (env : Readings) (s : State) :
  sessions (browser s) !! k = Some cl ->
  Genai.serverContent message = Some sc ->
  Genai.modelTurn sc = Some turn ->
  Genai.parts turn = None ->
  handle (Message k message env) s = (Throw, s).
Proof.
  intros Hk Hsc Hturn Hparts.
  rewrite (handle_message _ _ _ _ _ Hk), onmessage_run.
  unfold handleAudio, bind, complete, audioData.
  now rewrite Hsc, Hturn, Hparts.
Qed.

(** X14: a message whose first part carries no audio ([undefined] or the
    empty string) leaves the playback alone and is still processed for its
    transcripts, its turn-complete and its interrupt. *)
Theorem message_without_audio_skips_playback_only (k : nat) (cl : Closure)
    (message : Genai.LiveServerMessage) (data : option string) (env : Readings)
    (s : State) :
  sessions (browser s) !! k = Some cl ->
  audioData message = Normal data ->
  truthyString data = false ->
  handle (Message k message env) s = (Normal tt, afterAudio cl message env s).
Proof.
  intros Hk Hdata Hfalsy.
  rewrite (handle_message _ _ _ _ _ Hk), onmessage_run.
  unfold handleAudio, bind, complete, when. rewrite Hdata, Hfalsy.
  reflexivity.
Qed.

End Messages.

Section Lifecycle.

Import App Effects.

Ltac named s := destruct s as [r sr ac ns so st b].

Ltac monad :=
  cbv [step handle callback handleStartSession awaitSession onopen
       onaudioprocess onerror onclose onended stopAudio flushPlayback
       setupAudio newAudioContext getUserMedia connect freshId tryCatch
       setIsActive setConnectionStatus setIsMuted setSelectedVoice
       when bind gets modify ret throw delivers
       inputContext outputContext microphone granted
       withRender withBrowser withSessionRef withAudioContextRef
       withNextStartTime withSources withStreamRef
       render sessionRef audioContextRef nextStartTimeRef sourcesRef streamRef
       browser fst snd].

Lemma holdings_afterAudio cl message env s :
  holdings (afterAudio cl message env s) = holdings s.
Proof.
  destruct (transcribed_flags message (render s)) as (Ea & Es & _).
  destruct (turned_flags cl message env (transcribed message (render s)))
    as (Ea' & Es').
  unfold afterAudio. destruct (truthyFlag (field Genai.interrupted message));
    named s; unfold holdings; cbn in *; now rewrite Ea', Es', Ea, Es.
Qed.

Lemma traffic_step e s : midSession e = true -> holdings (step s e) = holdings s.
Proof.
  destruct e; try discriminate; intros _.
  - unfold step, handle, callback, bind, gets.
    destruct (sessions (browser s) !! k) as [cl|]; [|reflexivity].
    rewrite onmessage_run.
    destruct (handleAudio_cases message env s); cbn [snd];
      rewrite ?holdings_afterAudio; named s; reflexivity.
  - named s. monad. destruct (sessions b !! k) as [cl|]; [|reflexivity].
    destruct (_ && _), (isMuted (scope cl)); reflexivity.
  - named s. reflexivity.
  - named s. reflexivity.
  - named s. monad. destruct (isActive r); reflexivity.
Qed.

Lemma traffic_run events : forall s,
  forallb midSession events = true -> holdings (run events s) = holdings s.
Proof.
  induction events as [|e events IH]; intros s Hmid; [reflexivity|].
  cbn in Hmid. apply andb_prop in Hmid as [He Hrest].
  cbn [run fold_left]. unfold run in IH. rewrite (IH _ Hrest).
  now apply traffic_step.
Qed.

(** X15: the traffic of a session acquires and releases nothing: after any
    sequence of messages, captured frames, ended units, mute clicks and
    persona clicks, the three refs, the contexts, streams and sessions that
    exist, those that were closed or stopped, the attached processors, the
    activity flag and the status are what they were. *)
Theorem session_traffic_keeps_devices (events : list Event) (s : State) :
  forallb midSession events = true ->
  holdings (run events s) = holdings s.
Proof. apply traffic_run. Qed.

Lemma start_granted s :
  isActive (render s) = false ->
  let n := nextId (browser s) in
  let s' := step s (ClickStart granted) in
  sessions (browser s') !! S (S (S n))
  = Some {| scope := render s; inputCtx := n; outputCtx := S n; stream := S (S n) |}
  /\ audioContextRef s' = Some {| input := n; output := S n |}
  /\ streamRef s' = Some (S (S n))
  /\ sessionRef s' = sessionRef s
  /\ isActive (render s') = false
  /\ nextId (browser s') = S (S (S (S n)))
  /\ closedContexts (browser s') = closedContexts (browser s)
  /\ stoppedStreams (browser s') = stoppedStreams (browser s).
Proof.
  named s. cbn [render]. intros Ha. monad. rewrite Ha. cbn.
  split; [apply lookup_insert_eq|]. now rewrite Ha.
Qed.

Lemma open_then_settled k cl s :
  sessions (browser s) !! k = Some cl ->
  let s' := run [Open k; SessionSettled k true] s in
  sessionRef s' = Some k
  /\ audioContextRef s' = audioContextRef s
  /\ streamRef s' = streamRef s
  /\ isActive (render s') = true.
Proof.
  named s. cbn [browser]. intros Hk. cbn [run fold_left]. monad.
  rewrite Hk. cbn. rewrite Hk. cbn. auto.
Qed.

Lemma stop_releases env s k m c :
  isActive (render s) = true ->
  sessionRef s = Some k ->
  streamRef s = Some m ->
  audioContextRef s = Some c ->
  let s' := step s (ClickStart env) in
  isActive (render s') = false
  /\ connectionStatus (render s') = idle
  /\ input c ∈ closedContexts (browser s')
  /\ output c ∈ closedContexts (browser s')
  /\ m ∈ stoppedStreams (browser s')
  /\ k ∈ closedSessions (browser s')
  /\ sourcesRef s' = ∅
  /\ nextStartTimeRef s' = 0%Q.
Proof.
  named s. cbn [render sessionRef streamRef audioContextRef].
  intros Ha -> -> ->. monad. rewrite Ha. cbn.
  repeat split; set_solver.
Qed.

(** X16: a whole session releases what it acquired.  From any inactive
    state, start with every device granted, let the session open and its
    promise resolve, let any traffic pass, then click again: both contexts
    made by the start are closed, the stream it was granted is stopped, its
    session is closed, no unit stays active, the timeline is back at 0 and
    the component is idle and inactive. *)
Theorem full_cycle_releases_everything (s : State) (passing : list Event)
    (env : Devices) :
  isActive (render s) = false ->
  forallb midSession passing = true ->
  let n := nextId (browser s) in
  let k := S (S (S n)) in
  let s' := run ([ClickStart granted; Open k; SessionSettled k true]
                 ++ passing ++ [ClickStart env]) s in
  isActive (render s') = false
  /\ connectionStatus (render s') = idle
  /\ n ∈ closedContexts (browser s')
  /\ S n ∈ closedContexts (browser s')
  /\ S (S n) ∈ stoppedStreams (browser s')
  /\ k ∈ closedSessions (browser s')
  /\ sourcesRef s' = ∅
  /\ nextStartTimeRef s' = 0%Q.
Proof.
  intros Ha Hmid n k. cbv zeta.
  rewrite run_app, run_app.
  change (run [ClickStart granted; Open k; SessionSettled k true] s)
    with (run [Open k; SessionSettled k true] (step s (ClickStart granted))).
  destruct (start_granted s Ha) as (Hk & _).
  destruct (open_then_settled k _ _ Hk) as (Hsr & Hac & Hst & Hact).
  destruct (start_granted s Ha) as (_ & Hac0 & Hst0 & _).
  rewrite Hac0 in Hac. rewrite Hst0 in Hst.
  set (s1 := run [Open k; SessionSettled k true] (step s (ClickStart granted))) in *.
  pose proof (traffic_run passing s1 Hmid) as Hh.
  set (s2 := run passing s1) in *.
  change (run [ClickStart env] s2) with (step s2 (ClickStart env)).
  unfold holdings in Hh. injection Hh. intros.
  apply (stop_releases env s2 k (S (S n)) {| input := n; output := S n |});
    subst n; congruence.
Qed.

(** X17: starting again after an error or a close leaks the devices of the
    session before.  When the component is inactive and its refs still
    hold a stream that runs and contexts that are open, a start that is
    granted every device overwrites the refs, and from then on nothing
    stops that stream or closes those contexts, whatever happens. *)
Theorem restart_leaks_previous_devices (events after : list Event) (m : nat)
    (c : AudioContexts) (env : Devices) :
  let s := run events initial in
  isActive (render s) = false ->
  deviceFails env = false ->
  streamRef s = Some m ->
  audioContextRef s = Some c ->
  m ∉ stoppedStreams (browser s) ->
  input c ∉ closedContexts (browser s) ->
  output c ∉ closedContexts (browser s) ->
  let s' := run (ClickStart env :: after) s in
  (m ∉ stoppedStreams (browser s'))
  /\ (input c ∉ closedContexts (browser s'))
  /\ (output c ∉ closedContexts (browser s')).
Proof.
  intros s Ha Henv Hm Hc Hrun Hin Hout. cbv zeta.
  assert (env = granted) as ->
    by (destruct env as [[] [] []]; first [discriminate|reflexivity]).
  destruct (held_run events) as [(Fc & Fs & _) (H1 & H2 & _)]. fold s in Fc, Fs, H1, H2.
  destruct (H1 c Hc) as [Hi Ho]. pose proof (H2 m Hm) as Hs.
  pose proof (Fc (input c) (ex_intro _ _ Hi)) as Li.
  pose proof (Fc (output c) (ex_intro _ _ Ho)) as Lo.
  pose proof (Fs m Hs) as Lm.
  destruct (start_granted s Ha) as (_ & Hac & Hst & _ & _ & Hn & Hcc & Hss).
  change (run (ClickStart granted :: after) s)
    with (run after (step s (ClickStart granted))).
  split; [|split].
  - apply orphanStream_run.
    + rewrite Hn. lia.
    + rewrite Hst. intros [= Heq]. lia.
    + now rewrite Hss.
  - apply orphanContext_run.
    + rewrite Hn. lia.
    + rewrite Hac. intros held [= <-]. cbn. lia.
    + now rewrite Hcc.
  - apply orphanContext_run.
    + rewrite Hn. lia.
    + rewrite Hac. intros held [= <-]. cbn. lia.
    + now rewrite Hcc.
Qed.

End Lifecycle.

Section Retirement.

Import App Effects.

Lemma retired_effect n s s' : Effect s s' -> Retired n s -> Retired n s'.
Proof.
  intros E (Hlt & Hact & Hst).
  destruct E; unfold Retired, scheduled, flushed; cbn;
    try (split; [lia|split; [exact Hact|exact Hst]]).
  - split; [exact Hlt|]. split; [apply not_elem_of_empty|].
    intros [Hin|Hin]%elem_of_union; contradiction.
  - split; [lia|]. split; [|exact Hst].
    intros [Hin%elem_of_singleton|Hin]%elem_of_union; [lia|contradiction].
  - split; [exact Hlt|]. split; [|exact Hst].
    intros [Hin _]%elem_of_difference. contradiction.
Qed.

(** X5: a unit that ended on its own is never stopped: once its ['ended']
    listener has run, no interruption and no stop calls [stop] on it. *)
Theorem ended_unit_is_never_stopped (events after : list Event) (n : nat) :
  let s := run events initial in
  n ∈ sourcesRef s ->
  n ∉ stoppedSources (browser (run (Ended n :: after) s)).
Proof.
  cbv zeta. intros Hn.
  destruct (orderly_run events) as (O1 & _ & O3 & O4 & _).
  change (run (Ended n :: after) (run events initial))
    with (run after (step (run events initial) (Ended n))).
  apply (effects_keep (Retired n) (retired_effect n) after).
  split; [exact (O3 n (O1 n Hn))|]. split; [|exact (O4 n Hn)].
  cbn. intros [_ Hne]%elem_of_difference. apply Hne. now apply elem_of_singleton.
Qed.

(** X7: the voice of a session is the persona selected when it was
    started: a persona click followed by a granted start makes a session
    whose voice is that persona, and nothing that happens later changes
    it. *)
Theorem voice_is_fixed_at_start (events after : list Event) (v : Types.VoiceName) :
  let s := run events initial in
  isActive (render s) = false ->
  exists cl,
    sessions (browser (run ([ClickPersona v; ClickStart granted] ++ after) s))
      !! S (S (S (nextId (browser s)))) = Some cl
    /\ selectedVoice (scope cl) = v.
Proof.
  cbv zeta. intros Ha. set (s := run events initial) in *.
  assert (Hp : step s (ClickPersona v) = withRender (renderSelectedVoice v) s).
  { destruct s as [r sr ac ns so st b]. cbn in Ha. unfold step. cbn.
    unfold bind, gets, when, setSelectedVoice, modify. cbn. now rewrite Ha. }
  assert (Ha' : isActive (render (step s (ClickPersona v))) = false)
    by (rewrite Hp; destruct s; exact Ha).
  destruct (start_granted _ Ha') as (Hk & _).
  rewrite run_app.
  change (run [ClickPersona v; ClickStart granted] s)
    with (step (step s (ClickPersona v)) (ClickStart granted)).
  eexists. split.
  - apply sessions_run.
    + change (Fresh (run [ClickPersona v; ClickStart granted] s)).
      unfold s. rewrite <- run_app. apply fresh_run, fresh_initial.
    + replace (nextId (browser s))
        with (nextId (browser (step s (ClickPersona v))))
        by (rewrite Hp; destruct s; reflexivity).
      exact Hk.
  - rewrite Hp. destruct s; reflexivity.
Qed.

End Retirement.

Section Cards.

Import App Types Personas.

(** X18: the table of personas has one card for each voice, labelled with
    the value of the voice, so that in every render exactly one card
    carries the ring of the selected voice. *)
Theorem one_card_for_each_voice (r : Render) :
  length (filter (fun p => View.highlighted r (id p)) PERSONAS) = 1%nat
  /\ Forall (fun p => label p = voiceValue (id p)) PERSONAS.
Proof.
  split.
  - unfold View.highlighted. destruct (selectedVoice r); reflexivity.
  - repeat constructor.
Qed.

End Cards.

Section Examples.

Import App Effects.
Local Open Scope Q_scope.

Ltac decided :=
  lazymatch goal with
  | |- ?P => apply (@bool_decide_unpack P _); vm_compute; exact I
  end.
Ltac refuted :=
  lazymatch goal with
  | |- ~ ?P => apply (@bool_decide_eq_false_1 P _); vm_compute; reflexivity
  end.

(** Units 4 and 5 of [twoUnits]: 24 frames from 0, then 48 frames. *)
Lemma active_units_never_overlap_witness :
  4%nat ∈ sourcesRef (run twoUnits initial)
  /\ 5%nat ∈ sourcesRef (run twoUnits initial)
  /\ Qmax 0 0 + WebAudio.duration (silence 24)
     <= Qmax (Qmax 0 0 + WebAudio.duration (silence 24)) 0.
Proof.
  assert (H4 : 4%nat ∈ sourcesRef (run twoUnits initial)) by decided.
  assert (H5 : 5%nat ∈ sourcesRef (run twoUnits initial)) by decided.
  split; [exact H4|]. split; [exact H5|].
  apply (active_units_never_overlap twoUnits 4 5 1 1 (silence 24) (silence 48)
           (Qmax 0 0) (Qmax (Qmax 0 0 + WebAudio.duration (silence 24)) 0)
           H4 H5); [lia|vm_compute; reflexivity|vm_compute; reflexivity].
Defined.

Lemma active_units_are_scheduled_witness :
  5%nat ∈ sourcesRef (run twoUnits initial)
  /\ (5%nat ∉ stoppedSources (browser (run twoUnits initial))).
Proof.
  assert (H5 : 5%nat ∈ sourcesRef (run twoUnits initial)) by decided.
  split; [exact H5|].
  exact (proj1 (active_units_are_scheduled twoUnits 5 H5)).
Defined.

(** The closure of session 3 after the traffic and a stop. *)
Lemma session_closure_is_fixed_witness :
  sessions (browser (run (opening ++ traffic ++ [ClickStart granted]) initial)) !! 3%nat
  = Some firstClosure.
Proof.
  apply (session_closure_is_fixed opening (traffic ++ [ClickStart granted]) 3
           firstClosure).
  vm_compute. reflexivity.
Defined.

(** The session of [mutedStart] was started muted: the frame captured
    after the unmute is not handed over. *)
Lemma muted_session_never_sends_witness :
  isMuted (render (run mutedStart initial)) = false
  /\ ((3%nat, SampleCodec.createPcmBlob [0]) ∉ sent (browser (run mutedStart initial))).
Proof.
  split; [vm_compute; reflexivity|].
  apply (muted_session_never_sends mutedStart 3
           {| scope := renderIsMuted true initialRender;
              inputCtx := 0; outputCtx := 1; stream := 2 |});
    vm_compute; reflexivity.
Defined.

Lemma refs_hold_what_was_made_witness :
  contexts (browser (run opening initial)) !! 1%nat = Some 24000%positive.
Proof.
  apply (proj1 (refs_hold_what_was_made opening) firstContexts).
  vm_compute. reflexivity.
Defined.

Lemma fragment_is_always_scheduled_witness :
  exists c,
    audioContextRef (run opening initial) = Some c
    /\ contexts (browser (run opening initial)) !! output c = Some 24000%positive
    /\ step (run opening initial)
         (Message 3 (fragment "AAAA") (readings 0 (Some (silence 24))))
       = scheduled (output c) (silence 24) 0 (run opening initial).
Proof.
  apply (fragment_is_always_scheduled opening 3 firstClosure "AAAA"
           (readings 0 (Some (silence 24))) (silence 24));
    vm_compute; reflexivity.
Defined.

Lemma status_and_activity_agree_witness :
  isActive (render (run opening initial)) = true.
Proof.
  apply (proj1 (status_and_activity_agree opening)). vm_compute. reflexivity.
Defined.

(** After one completed turn the placeholder stays away, also when the
    session is stopped. *)
Lemma placeholder_never_returns_witness :
  View.showsPlaceholder
    (render (run [ClickStart granted]
               (run (opening ++ [Message 3 turnCompleted (readings 0 None)]) initial)))
  = false.
Proof.
  apply placeholder_never_returns. vm_compute. discriminate.
Defined.

(** [dialogue] on the opened session: "Hel", "undefined" and "lo" for the
    user, "Hi" for the model. *)
Lemma partial_transcripts_accumulate_witness :
  let s' := run (transcripts 3 dialogue) (run opening initial) in
  currentInput (render s') = "Helundefinedlo"%string
  /\ currentOutput (render s') = "Hi"%string.
Proof.
  cbv zeta.
  rewrite (partial_transcripts_accumulate 3 firstClosure dialogue (run opening initial))
    by (vm_compute; reflexivity).
  split; vm_compute; reflexivity.
Defined.

Lemma turn_without_parts_drops_the_message_witness :
  step (run opening initial) (Message 3 partless (readings 0 None))
  = run opening initial.
Proof.
  unfold step.
  rewrite (turn_without_parts_drops_the_message 3 firstClosure partless
             {| Genai.modelTurn := Some {| Genai.parts := None |};
                Genai.turnComplete := Some true; Genai.interrupted := Some true;
                Genai.inputTranscription := None;
                Genai.outputTranscription := None |}
             {| Genai.parts := None |} (readings 0 None) (run opening initial));
    vm_compute; reflexivity.
Defined.

Lemma message_without_audio_skips_playback_only_witness :
  let s' := step (run opening initial) (Message 3 silentTurn (readings 0 None)) in
  length (history (render s')) = 2%nat
  /\ started (browser s') = started (browser (run opening initial)).
Proof.
  cbv zeta. unfold step.
  rewrite (message_without_audio_skips_playback_only 3 firstClosure silentTurn
             (Some ""%string) (readings 0 None) (run opening initial));
    [split| | |]; vm_compute; reflexivity.
Defined.

Lemma session_traffic_keeps_devices_witness :
  holdings (run traffic (run opening initial)) = holdings (run opening initial).
Proof.
  apply session_traffic_keeps_devices. vm_compute. reflexivity.
Defined.

Lemma full_cycle_releases_everything_witness :
  let s' := run (opening ++ traffic ++ [ClickStart granted]) initial in
  isActive (render s') = false
  /\ connectionStatus (render s') = idle
  /\ 0%nat ∈ closedContexts (browser s')
  /\ 1%nat ∈ closedContexts (browser s')
  /\ 2%nat ∈ stoppedStreams (browser s')
  /\ 3%nat ∈ closedSessions (browser s')
  /\ sourcesRef s' = ∅
  /\ nextStartTimeRef s' = 0.
Proof.
  apply (full_cycle_releases_everything initial traffic granted);
    vm_compute; reflexivity.
Defined.

(** After the error of the first session, a second start and its stop:
    stream 2 still runs, contexts 0 and 1 are still open. *)
Lemma restart_leaks_previous_devices_witness :
  let s' := run (ClickStart granted :: [ClickStart granted])
              (run failedSession initial) in
  (2%nat ∉ stoppedStreams (browser s'))
  /\ (0%nat ∉ closedContexts (browser s'))
  /\ (1%nat ∉ closedContexts (browser s')).
Proof.
  apply (restart_leaks_previous_devices failedSession [ClickStart granted] 2
           firstContexts granted);
    first [vm_compute; reflexivity | refuted].
Defined.

(** Unit 4 of [twoUnits] ends; an interruption and a stop follow. *)
Lemma ended_unit_is_never_stopped_witness :
  4%nat ∈ sourcesRef (run twoUnits initial)
  /\ (4%nat ∉ stoppedSources
        (browser (run (Ended 4 :: [Message 3 interruption (readings 1 None);
                                   ClickStart granted])
                    (run twoUnits initial)))).
Proof.
  assert (H4 : 4%nat ∈ sourcesRef (run twoUnits initial)) by decided.
  split; [exact H4|].
  exact (ended_unit_is_never_stopped twoUnits
           [Message 3 interruption (readings 1 None); ClickStart granted] 4 H4).
Defined.

(** Kore is clicked on the fresh page, the session is started, and Puck is
    clicked after it ended on an error. *)
Lemma voice_is_fixed_at_start_witness :
  exists cl,
    sessions (browser (run ([ClickPersona Types.KORE; ClickStart granted]
                            ++ [Open 3; Error 3; ClickPersona Types.PUCK])
                         initial))
      !! 3%nat = Some cl
    /\ selectedVoice (scope cl) = Types.KORE.
Proof.
  apply (voice_is_fixed_at_start [] [Open 3; Error 3; ClickPersona Types.PUCK]
           Types.KORE).
  vm_compute. reflexivity.
Defined.

End Examples.
